(** * python-ts3: the ServerQuery codec and transaction layer of [ts3/__init__.py]

    A shallow embedding of the escaper ([ts3_escape], [_escape_str],
    [_unescape_str]), the line codec ([construct_command], [parse_response],
    [parse_data]), the response object ([TS3Response]) and the part of the
    transaction layer and of the facade that the codec is reached through
    ([check_connection], [send_command], [clientkick]).

    The library is Python 2 code: a [str] is a sequence of 8-bit characters,
    modelled as [string]; a dict of the response grammar is a [gmap] over
    string keys; a raised exception is a constructor of [exn]. *)

From Stdlib Require Import String Ascii ZArith List DecimalString Lia.
From stdpp Require Import gmap strings.
Import ListNotations.

Open Scope string_scope.

(** ** Python string primitives used by the module *)

Module PyStr.

(** [chr(n)] as a one-character string. *)
Definition chr (n : nat) : string := String (ascii_of_nat n) "".

(** Membership of a character in a string. *)
Fixpoint occurs (c : ascii) (s : string) : bool :=
  match s with
  | "" => false
  | String a s' => Ascii.eqb a c || occurs c s'
  end.

(** The characters removed by [str.strip()] without argument: space, tab,
    newline, vertical tab, form feed and carriage return. *)
Definition is_space (c : ascii) : bool :=
  match nat_of_ascii c with
  | 32 | 9 | 10 | 11 | 12 | 13 => true
  | _ => false
  end.

Fixpoint lstrip (s : string) : string :=
  match s with
  | "" => ""
  | String c s' => if is_space c then lstrip s' else s
  end.

Fixpoint rstrip (s : string) : string :=
  match s with
  | "" => ""
  | String c s' =>
      match rstrip s' with
      | "" => if is_space c then "" else String c ""
      | r => String c r
      end
  end.

(** [s.strip()] *)
Definition strip (s : string) : string := rstrip (lstrip s).

(** [s.split(sep)] for a one-character separator: the pieces between the
    occurrences of [sep], empty pieces included; never the empty list. *)
Fixpoint split (sep : ascii) (s : string) : list string :=
  match s with
  | "" => [""]
  | String c s' =>
      if Ascii.eqb c sep then "" :: split sep s'
      else match split sep s' with
           | p :: ps => String c p :: ps
           | [] => [String c ""]
           end
  end.

(** [sep.join(l)] *)
Definition join (sep : string) (l : list string) : string := String.concat sep l.

(** [s[n:]] *)
Fixpoint drop_chars (n : nat) (s : string) : string :=
  match n, s with
  | O, _ => s
  | S _, "" => ""
  | S k, String _ s' => drop_chars k s'
  end.

(** [s[:n]] *)
Fixpoint take_chars (n : nat) (s : string) : string :=
  match n, s with
  | O, _ => ""
  | S _, "" => ""
  | S k, String c s' => String c (take_chars k s')
  end.

(** [s.startswith(p)] *)
Definition startswith (p s : string) : bool := String.prefix p s.

(** [s.replace(old, new)]: the occurrences of [old] are found from the left
    and do not overlap.  [skip] counts the characters of a match that are
    still to be passed over. *)
Fixpoint replace_from (old new : string) (skip : nat) (s : string) : string :=
  match s with
  | "" => ""
  | String c s' =>
      match skip with
      | S k => replace_from old new k s'
      | O =>
          if String.prefix old s
          then new ++ replace_from old new (String.length old - 1) s'
          else String c (replace_from old new 0 s')
      end
  end.

(** With an empty [old], Python puts [new] before every character and at the
    end. *)
Fixpoint interleave (new s : string) : string :=
  match s with
  | "" => new
  | String c s' => new ++ String c (interleave new s')
  end.

Definition replace (old new s : string) : string :=
  match old with
  | "" => interleave new s
  | _ => replace_from old new 0 s
  end.

(** [str(n)] for an integer. *)
Definition str_of_int (z : Z) : string := NilZero.string_of_int (Z.to_int z).

End PyStr.

Import PyStr.

(** ** Escaper *)

(** A scalar value handed to the codec: a [str] or an instance of [int]
    ([@type value: string/int]); [VNone] is Python's [None]. *)
Inductive pyval : Type :=
  | VNone
  | VStr (s : string)
  | VInt (z : Z).

Definition ts3_escape : list (string * string) :=
  [ (chr 92, "\\");   (* \ *)
    (chr 47, "\/");   (* / *)
    (chr 32, "\s");   (* Space *)
    (chr 124, "\p");  (* | *)
    (chr 7, "\a");    (* Bell *)
    (chr 8, "\b");    (* Backspace *)
    (chr 12, "\f");   (* Formfeed *)
    (chr 10, "\n");   (* Newline *)
    (chr 13, "\r");   (* Carrage Return *)
    (chr 9, "\t");    (* Horizontal Tab *)
    (chr 11, "\v")    (* Vertical tab *)
  ].

(** The loop [for i, j in ts3_escape: value = value.replace(i, j)]. *)
Definition escape_chars (value : string) : string :=
  fold_left (fun v ij => replace (fst ij) (snd ij) v) ts3_escape value.

(** The loop [for i, j in ts3_escape: value = value.replace(j, i)]. *)
Definition unescape_chars (value : string) : string :=
  fold_left (fun v ij => replace (snd ij) (fst ij) v) ts3_escape value.

(** ** Exceptions and the two effect layers

    [result] carries a raised exception; [io] threads the connection through
    the calls, and keeps it when an exception is raised, since what was written
    to the channel stays written. *)

Inductive exn : Type :=
  | ConnectionError (ip : string) (port : Z)
  | NoConnection
  | InvalidArguments (msg : string)
  | NameError (name : string)
  | AttributeError (attr : string)
  | KeyError (key : string)
  | TypeError
  | ValueError.

Inductive result (A : Type) : Type :=
  | Ok (a : A)
  | Raise (e : exn).
Arguments Ok {A} a.
Arguments Raise {A} e.

Definition rbind {A B} (m : result A) (k : A -> result B) : result B :=
  match m with
  | Ok a => k a
  | Raise e => Raise e
  end.

Notation "x <- m ;; k" := (rbind m (fun x => k))
  (at level 20, m at level 99, k at level 200, only parsing).

(** The connection object: the [_connected] flag and the telnet channel, seen
    as the lines still to be returned by [read_until] and the strings written
    so far. *)
Record conn : Type := MkConn {
  _connected : bool;
  inbox : list string;
  outbox : list string
}.

Definition io (A : Type) : Type := conn -> result A * conn.

Definition ret {A} (a : A) : io A := fun self => (Ok a, self).
Definition raise {A} (e : exn) : io A := fun self => (Raise e, self).
Definition lift {A} (r : result A) : io A := fun self => (r, self).

Definition bind {A B} (m : io A) (k : A -> io B) : io B :=
  fun self =>
    match m self with
    | (Ok a, self') => k a self'
    | (Raise e, self') => (Raise e, self')
    end.

Notation "x <~ m ;; k" := (bind m (fun x => k))
  (at level 20, m at level 99, k at level 200, only parsing).

(** The line terminator of the module, ["\n\r"]. *)
Definition line_end : string := chr 10 ++ chr 13.

(** [self._telnet.write(s)] *)
Definition telnet_write (s : string) : io unit :=
  fun self => (Ok tt, MkConn (_connected self) (inbox self) (outbox self ++ [s])).

(** [self._telnet.read_until("\n\r", self._timeout)]: the next line of the
    channel, or the empty string when the timeout passes with nothing read. *)
Definition telnet_read_until : io string :=
  fun self =>
    match inbox self with
    | [] => (Ok "", self)
    | line :: rest => (Ok line, MkConn (_connected self) rest (outbox self))
    end.

(** ** TS3Proto: escaping of one value *)

(** [_escape_str(value)]: an [int] is returned as [str(value)]; a [str] goes
    through the table; [None] has no [replace]. *)
Definition _escape_str (value : pyval) : result string :=
  match value with
  | VInt z => Ok (str_of_int z)
  | VStr s => Ok (escape_chars s)
  | VNone => Raise (AttributeError "replace")
  end.

(** [_unescape_str(value)] *)
Definition _unescape_str (value : pyval) : result string :=
  match value with
  | VInt z => Ok (str_of_int z)
  | VStr s => Ok (unescape_chars s)
  | VNone => Raise (AttributeError "replace")
  end.

(** ** TS3Proto.construct_command *)

(** A value of the [keys] dict: a scalar, or a list for a nested parameter. *)
Inductive param : Type :=
  | Scalar (v : pyval)
  | Nested (l : list pyval).

(** [for nest in keys[key]: ncstr.append("%s=%s" % (key, self._escape_str(nest)))] *)
Fixpoint nested_loop (key : string) (l : list pyval) (ncstr : list string)
  : result (list string) :=
  match l with
  | [] => Ok ncstr
  | nest :: l' =>
      e <- _escape_str nest ;;
      nested_loop key l' (ncstr ++ [key ++ "=" ++ e])
  end.

(** [for key in keys: ...], the dict given by its items in iteration order. *)
Fixpoint keys_loop (keys : list (string * param)) (cstr : list string)
  : result (list string) :=
  match keys with
  | [] => Ok cstr
  | (key, Nested l) :: keys' =>
      ncstr <- nested_loop key l [] ;;
      keys_loop keys' (cstr ++ [join "|" ncstr])
  | (key, Scalar v) :: keys' =>
      e <- _escape_str v ;;
      keys_loop keys' (cstr ++ [key ++ "=" ++ e])
  end.

(** [for opt in opts: cstr.append("-%s" % opt)] *)
Fixpoint opts_loop (opts : list string) (cstr : list string) : list string :=
  match opts with
  | [] => cstr
  | opt :: opts' => opts_loop opts' (cstr ++ ["-" ++ opt])
  end.

(** Truth value of an optional container: [None] and the empty one are false. *)
Definition truthy_list {A} (o : option (list A)) : bool :=
  match o with
  | Some (_ :: _) => true
  | _ => false
  end.

Definition construct_command (command : string)
    (keys : option (list (string * param))) (opts : option (list string))
  : result string :=
  let cstr := [command] in
  cstr <- (if truthy_list keys
           then keys_loop (default [] keys) cstr
           else Ok cstr) ;;
  let cstr := if truthy_list opts then opts_loop (default [] opts) cstr else cstr in
  Ok (join " " cstr).

(** ** TS3Proto.parse_data and parse_response *)

(** What [parse_data] returns: a dict, or a list of what the recursive calls
    returned. *)
#[warnings="-register-all"] Inductive parsed : Type :=
  | PDict (d : gmap string pyval)
  | PList (l : list parsed).

(** The body of [for chunk in chunks]. [split] never yields the empty list, so
    [chunk[0]] is always there; the value is a [str], which [_unescape_str]
    sends through the table. *)
Definition parse_chunk (parsed_data : gmap string pyval) (chunk : string)
  : gmap string pyval :=
  let chunk := split "=" (strip chunk) in
  if (1 <? length chunk)%nat then
    let chunk :=
      if (2 <? length chunk)%nat
      then [hd "" chunk; join "=" (tl chunk)]
      else chunk in
    match chunk with
    | [key; value] => <[key := VStr (unescape_chars value)]> parsed_data
    | _ => parsed_data
    end
  else
    <[hd "" chunk := VNone]> parsed_data.

(** The part of [parse_data] after the multipart test. *)
Definition parse_chunks (data : string) : gmap string pyval :=
  let chunks := split " " data in
  fold_left parse_chunk chunks ∅.

(** [parse_data], with the depth of recursive calls still allowed. *)
Fixpoint parse_data_rec (depth : nat) (data : string) : option parsed :=
  match depth with
  | O => None
  | S depth' =>
      let data := strip data in
      let multipart := split "|" data in
      if (1 <? length multipart)%nat then
        PList <$> mapM (parse_data_rec depth') multipart
      else
        Some (PDict (parse_chunks data))
  end.

(** Two levels are all the recursion ever uses ([parse_data_rec_enough]
    below), which makes [parse_data] a total function. *)
Definition parse_data (data : string) : parsed :=
  default (PDict ∅) (parse_data_rec 2 data).

(** [parse_response]: the first six characters are dropped. *)
Definition parse_response (response : string) : parsed :=
  parse_data (drop_chars 6 response).

(** ** TS3Response *)

Record TS3Response : Type := MkResponse {
  response : parsed;
  data : parsed
}.

(** Truth value of a dict. *)
Definition truthy_dict (d : gmap string pyval) : bool :=
  negb (bool_decide (d = ∅)).

(** [TS3Response.__init__] *)
Definition TS3Response_init (response data : string) : TS3Response :=
  let self_response := parse_response response in
  let self_data := parse_data data in
  let self_data :=
    match self_data with
    | PDict d => if truthy_dict d then PList [self_data] else PList []
    | PList _ => self_data
    end in
  MkResponse self_response self_data.

Definition pyval_eqb (a b : pyval) : bool :=
  match a, b with
  | VNone, VNone => true
  | VStr s, VStr t => String.eqb s t
  | VInt x, VInt y => Z.eqb x y
  | _, _ => false
  end.

(** [is_successful]: [self.response['msg'] == 'ok'].  A missing key is a
    [KeyError]; a list cannot be indexed by a string. *)
Definition is_successful (r : TS3Response) : result bool :=
  match response r with
  | PDict d =>
      match d !! "msg" with
      | Some v => Ok (pyval_eqb v (VStr "ok"))
      | None => Raise (KeyError "msg")
      end
  | PList _ => Raise TypeError
  end.

(** ** TS3Proto: the transaction *)

(** An attribute read without a call: the bound method itself. *)
Inductive pyattr : Type :=
  | BoundMethod (f : conn -> bool).

(** Truth value of an attribute: a method object is always true. *)
Definition truthy_attr (a : pyattr) : bool :=
  match a with
  | BoundMethod _ => true
  end.

(** [def is_connected(self): return self._connected] *)
Definition is_connected (self : conn) : bool := _connected self.

(** [check_connection]: the test reads [self.is_connected], not
    [self.is_connected()]; the name [NoConnectionError] is bound nowhere in the
    module, which defines [NoConnection]. *)
Definition check_connection : io unit :=
  fun self =>
    if negb (truthy_attr (BoundMethod is_connected))
    then (Raise (NameError "NoConnectionError"), self)
    else (Ok tt, self).

(** [send_command]; the logger and the lock leave no trace in the model. *)
Definition send_command (command : string)
    (keys : option (list (string * param))) (opts : option (list string))
  : io TS3Response :=
  _ <~ check_connection ;;
  commandstr <~ lift (construct_command command keys opts) ;;
  _ <~ telnet_write (commandstr ++ line_end) ;;
  let data := "" in
  response <~ telnet_read_until ;;
  if negb (startswith "error" response) then
    (* what we just got was extra data *)
    let data := response in
    response <~ telnet_read_until ;;
    ret (TS3Response_init response data)
  else
    ret (TS3Response_init response data).

(** ** TS3Server: the facade *)

(** Truth value of a scalar argument. *)
Definition truthy (v : pyval) : bool :=
  match v with
  | VNone => false
  | VStr s => negb (String.eqb s "")
  | VInt z => negb (Z.eqb z 0)
  end.

(** [clientlist.values()] on the object [send_command] returns: a
    [TS3Response] has the attributes [response], [data] and [is_successful]
    only. *)
Definition TS3Response_values (r : TS3Response)
  : result (list (gmap string pyval)) :=
  Raise (AttributeError "values").

(** [int(x)] of a dict value. *)
Definition int_of (v : pyval) : result Z :=
  match v with
  | VInt z => Ok z
  | VStr s =>
      match NilZero.int_of_string (strip s) with
      | Some d => Ok (Z.of_int d)
      | None => Raise ValueError
      end
  | VNone => Raise TypeError
  end.

(** [cl[key]] *)
Definition getitem (cl : gmap string pyval) (key : string) : result pyval :=
  match cl !! key with
  | Some v => Ok v
  | None => Raise (KeyError key)
  end.

(** The loop over the client list of [clientkick]; it ends at the first
    client whose database id is [cldbid]. *)
Fixpoint find_client (cldbid : pyval) (cls : list (gmap string pyval))
  : result pyval :=
  match cls with
  | [] => Ok VNone
  | cl :: cls' =>
      dbid <- getitem cl "client_database_id" ;;
      n <- int_of dbid ;;
      if pyval_eqb (VInt n) cldbid then getitem cl "clid"
      else find_client cldbid cls'
  end.

(** [clientkick]. The default of [type], [REASON_KICK_SERVER], comes from the
    module [defines]; the caller's value is an argument here. *)
Definition clientkick (clid cldbid type : pyval) (message : option string)
  : io bool :=
  let kick (client : pyval) : io bool :=
    let message :=
      match message with
      | None | Some "" => ""
      | Some m =>
          (* Kick message can only be 40 characters *)
          take_chars 40 m
      end in
    if truthy client then
      response <~ send_command "clientkick"
        (Some [("clid", Scalar client); ("reasonid", Scalar type);
               ("reasonmsg", Scalar (VStr message))]) None ;;
      lift (is_successful response)
    else ret false in
  if truthy cldbid then
    clientlist <~ send_command "clientlist" None None ;;
    cls <~ lift (TS3Response_values clientlist) ;;
    client <~ lift (find_client cldbid cls) ;;
    if negb (truthy client) then
      (* TODO: we should throw an exception here actually *)
      ret false
    else kick client
  else if truthy clid then
    kick clid
  else
    raise (InvalidArguments "No clid or cldbid provided").

(** ** Predicates and reference definitions used in the statements *)

(** Whitespace-free strings. *)
Fixpoint no_space (s : string) : bool :=
  match s with
  | "" => true
  | String c s' => negb (is_space c) && no_space s'
  end.

(** Strings of whitespace, such as the line terminator. *)
Fixpoint only_space (s : string) : bool :=
  match s with
  | "" => true
  | String c s' => is_space c && only_space s'
  end.

(** The kick message as the facade's contract words it: absent means empty,
    at most 40 characters pass unchanged, longer ones are cut to their first
    40 characters. *)
Definition kick_reasonmsg_spec (message : option string) : string :=
  match message with
  | None => ""
  | Some m => if (String.length m <=? 40)%nat then m else substring 0 40 m
  end.

(** The characters of a printed integer. *)
Definition decimal_char (c : ascii) : bool :=
  match c with
  | "0" | "1" | "2" | "3" | "4" | "5" | "6" | "7" | "8" | "9" | "-" => true
  | _ => false
  end%char.

(** The line feed, the character that ends a line. *)
Definition newline : ascii := ascii_of_nat 10.

(** A value the codec is documented for: a string or an integer. *)
Definition is_scalar (v : pyval) : Prop := v <> VNone.

Definition well_typed_param (p : param) : Prop :=
  match p with
  | Scalar v => is_scalar v
  | Nested l => Forall is_scalar l
  end.

(** The command line as the codec's contract words it: an integer is printed in
    decimal and not escaped, a string is escaped; a scalar parameter gives the
    token [key=escapedValue], a list one such token per element, joined by
    [|]; an option gives [-option]; the command name and the tokens are joined
    by single spaces, and nothing follows. *)
Definition escaped_value (v : pyval) : string :=
  match v with
  | VInt z => str_of_int z
  | VStr s => escape_chars s
  | VNone => ""
  end.

Definition key_value (key : string) (v : pyval) : string :=
  key ++ "=" ++ escaped_value v.

Definition param_token (kv : string * param) : string :=
  match snd kv with
  | Scalar v => key_value (fst kv) v
  | Nested l => join "|" (map (key_value (fst kv)) l)
  end.

Definition option_token (opt : string) : string := "-" ++ opt.

Definition command_line_spec (command : string)
    (keys : list (string * param)) (opts : list string) : string :=
  join " " (command :: map param_token keys ++ map option_token opts).

(** An escaped string read as a sequence of tokens: a character standing for
    itself, or a backslash followed by a letter. *)
Inductive token : Type :=
  | Plain (c : ascii)
  | Esc (letter : ascii).

Definition render_token (t : token) : string :=
  match t with
  | Plain c => String c ""
  | Esc letter => String "\" (String letter "")
  end.

Fixpoint render (ts : list token) : string :=
  match ts with
  | [] => ""
  | t :: ts' => render_token t ++ render ts'
  end.

(** No token holds a backslash of its own. *)
Definition valid_token (t : token) : bool :=
  match t with
  | Plain c => negb (Ascii.eqb c "\")
  | Esc letter => negb (Ascii.eqb letter "\")
  end.

(** The token a character is escaped to. *)
Definition token_of (c : ascii) : token :=
  match escape_chars (String c "") with
  | String "\" (String letter "") => Esc letter
  | _ => Plain c
  end.

(** One step of unescaping, on a token. *)
Definition decode (letter c : ascii) (t : token) : token :=
  match t with
  | Esc y => if Ascii.eqb y letter then Plain c else t
  | Plain _ => t
  end.

(** The ten steps of unescaping that follow the one for the backslash, on a
    token. *)
Definition decode_all (t : token) : token :=
  decode "v" (ascii_of_nat 11)
    (decode "t" (ascii_of_nat 9)
       (decode "r" (ascii_of_nat 13)
          (decode "n" (ascii_of_nat 10)
             (decode "f" (ascii_of_nat 12)
                (decode "b" (ascii_of_nat 8)
                   (decode "a" (ascii_of_nat 7)
                      (decode "p" (ascii_of_nat 124)
                         (decode "s" (ascii_of_nat 32)
                            (decode "/" (ascii_of_nat 47) t))))))))).

(** ** The rest of the module: connecting, and the other facade methods *)

(** [s.endswith(suffix)]: some tail of [s] is [suffix]. *)
Fixpoint endswith (suffix s : string) : bool :=
  String.eqb s suffix ||
  match s with
  | "" => false
  | String _ s' => endswith suffix s'
  end.

(** [connect]. [channel] is what [telnetlib.Telnet(ip, port)] meets: [None]
    when the socket cannot be opened, else the lines the server is going to
    send.  The timeout is kept by the channel. *)
Definition connect (ip : string) (port : Z) (channel : option (list string))
  : result (bool * conn) :=
  match channel with
  | None => Raise (ConnectionError ip port)
  | Some lines =>
      let self := MkConn false lines [] in
      match telnet_read_until self with
      | (Ok data, self) =>
          if endswith ("TS3" ++ line_end) data
          then Ok (true, MkConn true (inbox self) (outbox self))
          else Ok (_connected self, self)
      | (Raise e, _) => Raise e
      end
  end.

(** [login]; the [keys] dict of each method is given in the order of its
    literal. *)
Definition login (username password : pyval) : io bool :=
  response <~ send_command "login"
    (Some [("client_login_name", Scalar username);
           ("client_login_password", Scalar password)]) None ;;
  lift (is_successful response).

(** [serverlist] *)
Definition serverlist : io TS3Response :=
  send_command "serverlist" None None.

(** [gm] *)
Definition gm (msg : pyval) : io bool :=
  response <~ send_command "gm" (Some [("msg", Scalar msg)]) None ;;
  lift (is_successful response).

(** [use] *)
Definition use (id : pyval) : io bool :=
  response <~ send_command "use" (Some [("sid", Scalar id)]) None ;;
  lift (is_successful response).

(** [clientpoke] *)
Definition clientpoke (clid message : pyval) : io bool :=
  response <~ send_command "clientpoke"
    (Some [("clid", Scalar clid); ("msg", Scalar message)]) None ;;
  lift (is_successful response).

(** Values as dict keys. *)
#[global] Instance pyval_eq_dec : EqDecision pyval.
Proof. solve_decision. Defined.

#[global] Instance pyval_countable : Countable pyval.
Proof.
  refine (inj_countable'
    (fun v => match v with
              | VNone => inl tt
              | VStr s => inr (inl s)
              | VInt z => inr (inr z)
              end)
    (fun x => match x with
              | inl _ => VNone
              | inr (inl s) => VStr s
              | inr (inr z) => VInt z
              end) _).
  intros [| |]; reflexivity.
Defined.

(** The loop of [clientlist]: [clientlist[client['clid']] = client] for each
    element of [response.data]; an element that is a list cannot be indexed
    by a string. *)
Fixpoint index_clients (records : list parsed)
    (clientlist : gmap pyval (gmap string pyval))
  : result (gmap pyval (gmap string pyval)) :=
  match records with
  | [] => Ok clientlist
  | PDict client :: records' =>
      clid <- getitem client "clid" ;;
      index_clients records' (<[clid := client]> clientlist)
  | PList _ :: _ => Raise TypeError
  end.

(** [clientlist]. Were [response.data] a dict, the loop would run over its
    keys, strings, which cannot be indexed by a string either. *)
Definition clientlist : io (gmap pyval (gmap string pyval)) :=
  response <~ send_command "clientlist" None None ;;
  successful <~ lift (is_successful response) ;;
  if successful then
    match data response with
    | PList records => lift (index_clients records ∅)
    | PDict d => if truthy_dict d then raise TypeError else ret ∅
    end
  else
    (* TODO: Raise a exception? *)
    ret ∅.

(** [TS3Server.__init__]: the object after construction, [None] when no
    connection was tried; [ip] is [None] or a string. *)
Definition TS3Server_init (ip : option string) (port id : Z)
    (channel : option (list string)) : result unit * option conn :=
  if negb (String.eqb (default "" ip) "") && negb (Z.eqb port 0) then
    match connect (default "" ip) port channel with
    | Raise e => (Raise e, None)
    | Ok (connected, self) =>
        if connected && (0 <? id)%Z then
          match use (VInt id) self with
          | (Ok _, self') => (Ok tt, Some self')
          | (Raise e, self') => (Raise e, Some self')
          end
        else (Ok tt, Some self)
    end
  else (Ok tt, None).

(** ** Further predicates and reference definitions *)

(** The nine characters the table escapes to a backslash and a letter:
    space, pipe, bell, backspace, form feed, line feed, carriage return,
    tab and vertical tab. *)
Definition escaped_away : list ascii :=
  map ascii_of_nat [32; 124; 7; 8; 12; 10; 13; 9; 11]%nat.

(** All eleven characters of the table. *)
Definition table_chars : list ascii :=
  map ascii_of_nat [92; 47]%nat ++ escaped_away.

(** Number of occurrences of a character. *)
Fixpoint count_char (c : ascii) (s : string) : nat :=
  match s with
  | "" => 0
  | String a s' => (if Ascii.eqb a c then 1 else 0) + count_char c s'
  end.

(** A chunk of a data line as the grammar has it: a key alone, or a key and a
    value. *)
Definition chunk_token (kv : string * option string) : string :=
  match snd kv with
  | None => fst kv
  | Some value => fst kv ++ "=" ++ value
  end.

(** What a chunk stores. *)
Definition chunk_value (kv : string * option string) : pyval :=
  match snd kv with
  | None => VNone
  | Some value => VStr (unescape_chars value)
  end.

(** Names and values that the delimiters of the grammar leave in one piece: no
    whitespace, no pipe, and for a key no [=]; a key alone is not empty. *)
Definition wf_name (key : string) : bool :=
  no_space key && negb (occurs "|" key) && negb (occurs "=" key).

Definition wf_chunk (kv : string * option string) : bool :=
  wf_name (fst kv) &&
  match snd kv with
  | None => negb (String.eqb (fst kv) "")
  | Some value => no_space value && negb (occurs "|" value)
  end.

(** A [str] without backslash, or an [int]. *)
Definition plain_value (v : pyval) : bool :=
  match v with
  | VStr s => negb (occurs "\" s)
  | VInt _ => true
  | VNone => false
  end.

(** The text a value comes back as. *)
Definition value_text (v : pyval) : string :=
  match v with
  | VStr s => s
  | VInt z => str_of_int z
  | VNone => ""
  end.

Definition is_none (v : pyval) : bool :=
  match v with
  | VNone => true
  | _ => false
  end.

(** A parameter holding [None]. *)
Definition has_none (p : param) : bool :=
  match p with
  | Scalar v => is_none v
  | Nested l => existsb is_none l
  end.

(** The status line [error id=N msg=M] followed by [tail]. *)
Definition status_line (n : Z) (msg tail : string) : string :=
  "error " ++ ("id=" ++ str_of_int n ++ " msg=" ++ msg) ++ tail.

(** The greeting [connect] waits for. *)
Definition banner : string := "TS3" ++ line_end.

(** What the server sends back for one command: a data line, if any, which
    does not start with [error], then the status line. *)
Definition answer_lines (dataline : option string) (status : string)
  : list string :=
  match dataline with
  | None => [status]
  | Some d => [d; status]
  end.

Definition is_data_line (dataline : option string) : bool :=
  match dataline with
  | None => true
  | Some d => negb (startswith "error" d)
  end.

(** What the boolean methods of the facade share: one transaction without
    option, then [is_successful]. *)
Definition report (command : string) (keys : option (list (string * param)))
  : io bool :=
  bind (send_command command keys None)
       (fun response => lift (is_successful response)).

(** * Properties *)

(** ** Splitting, joining and stripping *)

Section StringFacts.

Lemma app_cons (c : ascii) (a b : string) :
  String c a ++ b = String c (a ++ b).
Proof. reflexivity. Qed.

Lemma app_nil_str (b : string) : "" ++ b = b.
Proof. reflexivity. Qed.

Lemma app_assoc_str (a b c : string) : (a ++ b) ++ c = a ++ b ++ c.
Proof.
  induction a as [|x a IH]; [reflexivity|].
  rewrite !app_cons, IH. reflexivity.
Qed.

Lemma prefix_nil (s : string) : String.prefix "" s = true.
Proof. destruct s; reflexivity. Qed.

Lemma occurs_app (c : ascii) (a b : string) :
  occurs c (a ++ b) = occurs c a || occurs c b.
Proof.
  induction a as [|x a IH]; simpl; [reflexivity|].
  rewrite IH. apply orb_assoc.
Qed.

Lemma split_not_nil (sep : ascii) (s : string) : split sep s <> [].
Proof.
  destruct s as [|c s]; simpl; [discriminate|].
  destruct (Ascii.eqb c sep); [discriminate|].
  destruct (split sep s); discriminate.
Qed.

(** A string without the separator is its own single piece. *)
Lemma split_no_sep (sep : ascii) (s : string) :
  occurs sep s = false -> split sep s = [s].
Proof.
  induction s as [|c s IH]; simpl; [reflexivity|].
  intros H. apply orb_false_iff in H as [Hc Hs].
  rewrite Hc, (IH Hs). reflexivity.
Qed.

(** More than one piece exactly when the separator occurs. *)
Lemma split_length_gt1 (sep : ascii) (s : string) :
  (1 <? length (split sep s))%nat = occurs sep s.
Proof.
  induction s as [|c s IH]; simpl; [reflexivity|].
  pose proof (split_not_nil sep s) as Hne.
  destruct (Ascii.eqb c sep); simpl.
  - destruct (split sep s); [contradiction|reflexivity].
  - rewrite <- IH. destruct (split sep s); [contradiction|reflexivity].
Qed.

(** No piece contains the separator. *)
Lemma split_pieces_no_sep (sep : ascii) (s : string) :
  Forall (fun p => occurs sep p = false) (split sep s).
Proof.
  induction s as [|c s IH]; simpl.
  - repeat constructor.
  - destruct (Ascii.eqb c sep) eqn:Hc.
    + constructor; [reflexivity|exact IH].
    + destruct (split sep s) as [|p ps].
      * repeat constructor. simpl. rewrite Hc. reflexivity.
      * inversion IH; subst. constructor; [|assumption].
        simpl. rewrite Hc. assumption.
Qed.

(** The first piece ends at the first separator. *)
Lemma split_app_sep (sep : ascii) (a b : string) :
  occurs sep a = false ->
  split sep (a ++ String sep b) = a :: split sep b.
Proof.
  induction a as [|c a IH]; simpl.
  - intros _. rewrite Ascii.eqb_refl. reflexivity.
  - intros H. apply orb_false_iff in H as [Hc Ha].
    rewrite Hc, (IH Ha). reflexivity.
Qed.

(** Joining the pieces with the separator gives the string back. *)
Lemma join_split (sep : ascii) (s : string) :
  join (String sep "") (split sep s) = s.
Proof.
  unfold join. induction s as [|c s IH]; simpl; [reflexivity|].
  pose proof (split_not_nil sep s) as Hne.
  destruct (Ascii.eqb c sep) eqn:Hc.
  - apply Ascii.eqb_eq in Hc. subst c.
    destruct (split sep s) as [|p ps]; [contradiction|].
    simpl in *. rewrite IH. reflexivity.
  - destruct (split sep s) as [|p ps]; [contradiction|].
    destruct ps; simpl in *; rewrite <- IH; reflexivity.
Qed.

Lemma no_space_app (a b : string) :
  no_space (a ++ b) = no_space a && no_space b.
Proof.
  induction a as [|c a IH]; [reflexivity|].
  rewrite app_cons. cbn [no_space]. rewrite IH. apply andb_assoc.
Qed.

Lemma no_space_of_occurs (s : string) :
  (forall c, occurs c s = true -> is_space c = false) -> no_space s = true.
Proof.
  induction s as [|x s IH]; intros H; [reflexivity|].
  cbn [no_space]. rewrite (H x), IH; [reflexivity| |].
  - intros c Hc. apply H. cbn [occurs]. rewrite Hc. apply orb_true_r.
  - cbn [occurs]. rewrite Ascii.eqb_refl. reflexivity.
Qed.

Lemma rstrip_no_space (s : string) : no_space s = true -> rstrip s = s.
Proof.
  induction s as [|c s IH]; [reflexivity|].
  cbn [no_space rstrip]. intros H. apply andb_true_iff in H as [Hc Hs].
  apply negb_true_iff in Hc. rewrite (IH Hs), Hc. destruct s; reflexivity.
Qed.

Lemma strip_no_space (s : string) : no_space s = true -> strip s = s.
Proof.
  intros H. unfold strip.
  assert (lstrip s = s) as ->.
  { destruct s as [|c s]; [reflexivity|].
    cbn [no_space] in H. apply andb_true_iff in H as [Hc _].
    apply negb_true_iff in Hc. cbn [lstrip]. rewrite Hc. reflexivity. }
  apply rstrip_no_space, H.
Qed.

(** Trailing whitespace goes. *)
Lemma rstrip_app_only_space (a tail : string) :
  only_space tail = true -> rstrip (a ++ tail) = rstrip a.
Proof.
  intros Ht.
  assert (Htail : rstrip tail = "").
  { induction tail as [|c t IH]; [reflexivity|].
    cbn [only_space] in Ht. apply andb_true_iff in Ht as [Hc Ht'].
    cbn [rstrip]. rewrite (IH Ht'), Hc. reflexivity. }
  induction a as [|x a IH]; [exact Htail|].
  rewrite app_cons. cbn [rstrip]. rewrite IH. reflexivity.
Qed.

(** What comes before a part that does not strip to nothing stays. *)
Lemma rstrip_app_r (a b : string) :
  rstrip b <> "" -> rstrip (a ++ b) = a ++ rstrip b.
Proof.
  intros Hb. induction a as [|x a IH]; [reflexivity|].
  rewrite !app_cons. cbn [rstrip]. rewrite IH.
  destruct (a ++ rstrip b) eqn:E; [|reflexivity].
  destruct a; [|discriminate]. contradiction.
Qed.

Lemma drop_chars_app (h r : string) :
  drop_chars (String.length h) (h ++ r) = r.
Proof.
  induction h as [|c h IH]; [destruct r; reflexivity|exact IH].
Qed.

(** A printed integer is made of digits and, if negative, the sign. *)
Lemma str_of_int_decimal (z : Z) (c : ascii) :
  occurs c (str_of_int z) = true -> decimal_char c = true.
Proof.
  unfold str_of_int.
  assert (Hu : forall d, occurs c (NilEmpty.string_of_uint d) = true ->
                         decimal_char c = true).
  { induction d; cbn [NilEmpty.string_of_uint occurs]; [discriminate|..];
      (intros H; apply orb_true_iff in H as [H|H];
       [apply Ascii.eqb_eq in H; subst c; reflexivity|auto]). }
  assert (Hz : forall d, occurs c (NilZero.string_of_uint d) = true ->
                         decimal_char c = true).
  { intros d. unfold NilZero.string_of_uint. destruct d; try apply Hu.
    cbn [occurs]. rewrite orb_false_r.
    intros H. apply Ascii.eqb_eq in H. subst c. reflexivity. }
  unfold NilZero.string_of_int.
  destruct (Z.to_int z) as [d|d]; cbn [occurs].
  - apply Hz.
  - intros H. apply orb_true_iff in H as [H|H].
    + apply Ascii.eqb_eq in H. subst c. reflexivity.
    + apply (Hz d H).
Qed.

End StringFacts.

(** Concatenations of literal prefixes, pushed to the head. *)
Ltac norm_app := rewrite ?app_cons, ?app_nil_str.


(** ** Escaping and unescaping *)

Section Escaper.

(** Replacing one character goes through concatenation. *)
Lemma replace_char_app (c : ascii) (new a b : string) :
  replace (String c "") new (a ++ b) =
  replace (String c "") new a ++ replace (String c "") new b.
Proof.
  cbn [replace]. induction a as [|x a IH]; [reflexivity|].
  rewrite app_cons. cbn [replace_from String.prefix String.length Nat.sub].
  destruct (ascii_dec c x) as [_|_].
  - rewrite !prefix_nil, IH, app_assoc_str. reflexivity.
  - rewrite IH. reflexivity.
Qed.

Lemma escape_chars_app (a b : string) :
  escape_chars (a ++ b) = escape_chars a ++ escape_chars b.
Proof.
  unfold escape_chars, ts3_escape, chr. cbn [fold_left fst snd].
  rewrite !replace_char_app. reflexivity.
Qed.

Lemma token_of_spec (c : ascii) :
  Ascii.eqb c "\" = false ->
  escape_chars (String c "") = render_token (token_of c) /\
  valid_token (token_of c) = true.
Proof.
  destruct c as [[] [] [] [] [] [] [] []]; intros H;
    first [discriminate H | split; vm_compute; reflexivity].
Qed.

(** A string without backslash is escaped character by character. *)
Lemma escape_chars_tokens (s : string) :
  occurs "\" s = false ->
  escape_chars s = render (map token_of (list_ascii_of_string s)) /\
  forallb valid_token (map token_of (list_ascii_of_string s)) = true.
Proof.
  induction s as [|c s IH]; [intros _; split; reflexivity|].
  cbn [occurs]. intros H. apply orb_false_iff in H as [Hc Hs].
  destruct (IH Hs) as [IH1 IH2]. destruct (token_of_spec c Hc) as [Ht Hv].
  cbn [list_ascii_of_string map render forallb]. split.
  - change (String c s) with (String c "" ++ s).
    rewrite escape_chars_app, Ht, IH1. reflexivity.
  - rewrite Hv, IH2. reflexivity.
Qed.

Lemma neq_backslash (y : ascii) :
  negb (Ascii.eqb y "\") = true -> forall H : {"\"%char = y} + {"\"%char <> y},
  exists n, H = right n.
Proof.
  intros Hy [e|n]; [|eauto]. subst y. discriminate.
Qed.

(** On a valid token sequence, a step of unescaping decodes the tokens of its
    letter and leaves the others. *)
Lemma replace_render (letter c : ascii) (ts : list token) :
  negb (Ascii.eqb letter "\") = true ->
  forallb valid_token ts = true ->
  replace (String "\" (String letter "")) (String c "") (render ts) =
  render (map (decode letter c) ts).
Proof.
  intros Hl. cbn [replace]. induction ts as [|t ts IH]; [reflexivity|].
  cbn [forallb]. intros H. apply andb_true_iff in H as [Ht Hts].
  specialize (IH Hts). destruct t as [x|y]; cbn [valid_token] in Ht;
    cbn [map decode render render_token]; norm_app;
    cbn [replace_from String.prefix String.length Nat.sub].
  - destruct (neq_backslash x Ht (ascii_dec "\" x)) as [n ->].
    rewrite IH. reflexivity.
  - destruct (ascii_dec "\" "\") as [_|n]; [|contradiction].
    destruct (ascii_dec letter y) as [->|Hne].
    + rewrite Ascii.eqb_refl, prefix_nil. cbn [render render_token].
      norm_app. f_equal. exact IH.
    + destruct (neq_backslash y Ht (ascii_dec "\" y)) as [n ->].
      destruct (Ascii.eqb y letter) eqn:E;
        [apply Ascii.eqb_eq in E; congruence|].
      cbn [render render_token]. norm_app. rewrite IH. reflexivity.
Qed.

(** The first step of unescaping, for the doubled backslash, finds nothing in
    a valid token sequence. *)
Lemma replace_render_backslash (ts : list token) :
  forallb valid_token ts = true ->
  replace "\\" (String "\" "") (render ts) = render ts.
Proof.
  cbn [replace]. induction ts as [|t ts IH]; [reflexivity|].
  cbn [forallb]. intros H. apply andb_true_iff in H as [Ht Hts].
  specialize (IH Hts). destruct t as [x|y]; cbn [valid_token] in Ht;
    cbn [render render_token]; norm_app;
    cbn [replace_from String.prefix].
  - destruct (neq_backslash x Ht (ascii_dec "\" x)) as [n ->].
    rewrite IH. reflexivity.
  - destruct (ascii_dec "\" "\") as [_|n]; [|contradiction].
    destruct (neq_backslash y Ht (ascii_dec "\" y)) as [n ->].
    rewrite IH. reflexivity.
Qed.

Lemma decode_valid (letter c : ascii) (ts : list token) :
  negb (Ascii.eqb c "\") = true ->
  forallb valid_token ts = true ->
  forallb valid_token (map (decode letter c) ts) = true.
Proof.
  intros Hc. induction ts as [|t ts IH]; [reflexivity|].
  cbn [forallb map]. intros H. apply andb_true_iff in H as [Ht Hts].
  rewrite (IH Hts), andb_true_r. destruct t as [x|y]; [exact Ht|].
  cbn [decode]. destruct (Ascii.eqb y letter); [exact Hc|exact Ht].
Qed.

Lemma decode_all_token_of (c : ascii) :
  Ascii.eqb c "\" = false -> render_token (decode_all (token_of c)) = String c "".
Proof.
  destruct c as [[] [] [] [] [] [] [] []]; intros H;
    first [discriminate H | vm_compute; reflexivity].
Qed.

(** Unescaping undoes escaping on every string without backslash. *)
Lemma unescape_escape_no_backslash (s : string) :
  occurs "\" s = false -> unescape_chars (escape_chars s) = s.
Proof.
  intros H. destruct (escape_chars_tokens s H) as [-> Hv].
  unfold unescape_chars, ts3_escape, chr. cbn [fold_left fst snd].
  rewrite replace_render_backslash by exact Hv.
  repeat (rewrite replace_render;
          [|reflexivity|repeat (apply decode_valid; [reflexivity|]); exact Hv]).
  rewrite !map_map.
  change (render (map (fun c => decode_all (token_of c))
                      (list_ascii_of_string s)) = s).
  clear Hv. induction s as [|c s IH]; [reflexivity|].
  cbn [occurs] in H. apply orb_false_iff in H as [Hc Hs].
  cbn [list_ascii_of_string map render].
  rewrite (decode_all_token_of c Hc), (IH Hs). reflexivity.
Qed.

(** C1: the string made of a backslash and the letter [s] is escaped to two
    backslashes and [s]; unescaping first turns the two backslashes into one,
    and then reads that one and the [s] as an escaped space: the round trip
    gives a space, not the string. *)
Theorem unescape_escape_backslash_s :
  _escape_str (VStr "\s") = Ok "\\s" /\
  _unescape_str (VStr "\\s") = Ok " " /\
  unescape_chars (escape_chars "\s") <> "\s".
Proof.
  split; [reflexivity|]. split; [reflexivity|].
  vm_compute. discriminate.
Qed.

End Escaper.

(** ** The recursion of [parse_data] *)

Section ParseData.

Lemma is_space_neq (x c : ascii) :
  is_space x = true -> is_space c = false -> Ascii.eqb x c = false.
Proof.
  intros Hx Hc. destruct (Ascii.eqb x c) eqn:E; [|reflexivity].
  apply Ascii.eqb_eq in E. congruence.
Qed.

Lemma occurs_lstrip_eq (c : ascii) (s : string) :
  is_space c = false -> occurs c (lstrip s) = occurs c s.
Proof.
  intros Hc. induction s as [|x s IH]; simpl; [reflexivity|].
  destruct (is_space x) eqn:Hx; [|reflexivity].
  rewrite IH, (is_space_neq x c Hx Hc). reflexivity.
Qed.

Lemma occurs_rstrip_eq (c : ascii) (s : string) :
  is_space c = false -> occurs c (rstrip s) = occurs c s.
Proof.
  intros Hc. induction s as [|x s IH]; simpl; [reflexivity|].
  destruct (rstrip s) eqn:Hr.
  - rewrite <- IH. simpl. destruct (is_space x) eqn:Hx; simpl.
    + rewrite (is_space_neq x c Hx Hc). reflexivity.
    + reflexivity.
  - rewrite <- IH. reflexivity.
Qed.

(** Stripping removes whitespace only: other characters stay. *)
Lemma occurs_strip_eq (c : ascii) (s : string) :
  is_space c = false -> occurs c (strip s) = occurs c s.
Proof.
  intros Hc. unfold strip.
  rewrite occurs_rstrip_eq, occurs_lstrip_eq by exact Hc. reflexivity.
Qed.

Lemma mapM_all_Some {A B} (f : A -> option B) (g : A -> B) (l : list A) :
  Forall (fun x => f x = Some (g x)) l -> mapM f l = Some (map g l).
Proof.
  induction 1 as [|x l Hx _ IH]; simpl; [reflexivity|].
  rewrite Hx. simpl. rewrite IH. reflexivity.
Qed.

(** A line without pipe is decoded as one record, at any positive depth. *)
Lemma parse_data_rec_single (depth : nat) (data : string) :
  occurs "|" data = false ->
  parse_data_rec (S depth) data = Some (PDict (parse_chunks (strip data))).
Proof.
  intros H. simpl.
  rewrite split_length_gt1, occurs_strip_eq, H by reflexivity.
  reflexivity.
Qed.

(** A line with a pipe is decoded piece by piece, and one more level is all
    the pieces need. *)
Lemma parse_data_rec_multi (depth : nat) (data : string) :
  occurs "|" data = true ->
  parse_data_rec (S (S depth)) data =
  Some (PList (map (fun part => PDict (parse_chunks (strip part)))
                   (split "|" (strip data)))).
Proof.
  intros H.
  change (parse_data_rec (S (S depth)) data) with
    (let data := strip data in
     let multipart := split "|" data in
     if (1 <? length multipart)%nat
     then PList <$> mapM (parse_data_rec (S depth)) multipart
     else Some (PDict (parse_chunks data))).
  cbv zeta.
  rewrite split_length_gt1, occurs_strip_eq, H by reflexivity.
  rewrite (mapM_all_Some _ (fun part => PDict (parse_chunks (strip part)))).
  - reflexivity.
  - eapply Forall_impl; [apply split_pieces_no_sep|].
    intros part Hp. apply parse_data_rec_single, Hp.
Qed.

(** [parse_data] is the result at every depth from two on. *)
Lemma parse_data_rec_enough (depth : nat) (data : string) :
  (2 <= depth)%nat -> parse_data_rec depth data = Some (parse_data data).
Proof.
  intros Hd. destruct depth as [|[|depth]]; [lia|lia|].
  unfold parse_data.
  destruct (occurs "|" data) eqn:H.
  - rewrite (parse_data_rec_multi depth), (parse_data_rec_multi 0) by exact H.
    reflexivity.
  - rewrite (parse_data_rec_single (S depth)), (parse_data_rec_single 1) by exact H.
    reflexivity.
Qed.

Lemma parse_data_single (data : string) :
  occurs "|" data = false -> parse_data data = PDict (parse_chunks (strip data)).
Proof.
  intros H. unfold parse_data. rewrite (parse_data_rec_single 1 data H).
  reflexivity.
Qed.

Lemma parse_data_multi (data : string) :
  occurs "|" data = true ->
  parse_data data =
  PList (map (fun part => PDict (parse_chunks (strip part)))
             (split "|" (strip data))).
Proof.
  intros H. unfold parse_data. rewrite (parse_data_rec_multi 0 data H).
  reflexivity.
Qed.

End ParseData.

(** ** Decoding data lines and building the response *)

Section Response.

(** What [parse_data] returns is a dict or a list of dicts, never a deeper
    nesting. *)
Lemma parse_data_shape (data : string) :
  (exists d, parse_data data = PDict d) \/
  (exists l, parse_data data = PList l /\ Forall (fun p => exists d, p = PDict d) l).
Proof.
  destruct (occurs "|" data) eqn:H.
  - right. rewrite (parse_data_multi data H). eexists. split; [reflexivity|].
    apply Forall_map, Forall_forall. intros part _. eexists. reflexivity.
  - left. rewrite (parse_data_single data H). eexists. reflexivity.
Qed.

(** The loop over the chunks never leaves the dict empty: every chunk, the
    empty one included, stores a key. *)
Lemma parse_chunk_nonempty (d : gmap string pyval) (chunk : string) :
  parse_chunk d chunk <> ∅.
Proof.
  unfold parse_chunk.
  pose proof (split_not_nil "=" (strip chunk)) as Hne.
  destruct (split "=" (strip chunk)) as [|k [|v [|w rest]]]; simpl;
    try contradiction; apply insert_non_empty.
Qed.

Lemma parse_chunks_nonempty (data : string) : parse_chunks data <> ∅.
Proof.
  unfold parse_chunks.
  pose proof (split_not_nil " " data) as Hne.
  destruct (split " " data) as [|c cs] using rev_ind; [contradiction|].
  rewrite fold_left_app. simpl. apply parse_chunk_nonempty.
Qed.

(** No line decodes to the empty dict, so the branch of [TS3Response.__init__]
    for it is never taken. *)
Lemma parse_data_never_empty (data : string) : parse_data data <> PDict ∅.
Proof.
  destruct (occurs "|" data) eqn:H.
  - rewrite (parse_data_multi data H). discriminate.
  - rewrite (parse_data_single data H). intros E.
    apply (parse_chunks_nonempty (strip data)). congruence.
Qed.

(** C7: decoding a data line that contains a pipe yields the ordered sequence
    of the decodings of its pipe-separated parts, one record per part, each
    decoded by the single-record grammar, at every recursion depth from two
    on; in particular ["clid=1 name=a|clid=2 name=b"] decodes to the two
    records [{clid:"1",name:"a"}] and [{clid:"2",name:"b"}], in this order. *)
Theorem parse_data_pipe_delimited :
  (forall data : string,
     occurs "|" data = true ->
     let parts := split "|" (strip data) in
     parse_data data = PList (map parse_data parts) /\
     length (map parse_data parts) = length parts /\
     Forall (fun part => parse_data part = PDict (parse_chunks (strip part))) parts /\
     forall depth, (2 <= depth)%nat ->
       parse_data_rec depth data = Some (PList (map parse_data parts)))
  /\ parse_data "clid=1 name=a|clid=2 name=b" =
     PList [ PDict (<["clid" := VStr "1"]> (<["name" := VStr "a"]> ∅));
             PDict (<["clid" := VStr "2"]> (<["name" := VStr "b"]> ∅)) ].
Proof.
  split; [|vm_compute; reflexivity].
  intros data H parts.
  assert (Hparts : Forall (fun part =>
            parse_data part = PDict (parse_chunks (strip part))) parts).
  { eapply Forall_impl; [apply split_pieces_no_sep|].
    intros part Hp. apply parse_data_single, Hp. }
  assert (Heq : parse_data data = PList (map parse_data parts)).
  { rewrite (parse_data_multi data H). f_equal.
    apply map_ext_Forall. eapply Forall_impl; [exact Hparts|].
    intros part Hp. symmetry. exact Hp. }
  repeat split.
  - exact Heq.
  - apply length_map.
  - exact Hparts.
  - intros depth Hd. rewrite <- Heq. apply parse_data_rec_enough, Hd.
Qed.

(** C10: whatever the status line and the data line, the [data] field of the
    response is a list of dicts: a non-empty dict is wrapped into a one-element
    list, the empty dict becomes the empty list, a list is kept as it is. *)
Theorem TS3Response_data_is_list (status line : string) :
  (exists l, data (TS3Response_init status line) = PList l /\
             Forall (fun p => exists d, p = PDict d) l) /\
  (forall d, parse_data line = PDict d -> d <> ∅ ->
             data (TS3Response_init status line) = PList [PDict d]) /\
  (parse_data line = PDict ∅ ->
             data (TS3Response_init status line) = PList []) /\
  (forall l, parse_data line = PList l ->
             data (TS3Response_init status line) = PList l).
Proof.
  unfold TS3Response_init, truthy_dict. simpl.
  repeat split.
  - destruct (parse_data_shape line) as [[d Hd]|[l [Hl Hall]]].
    + rewrite Hd. destruct (bool_decide (d = ∅)); simpl.
      * exists []. split; [reflexivity|constructor].
      * exists [PDict d]. split; [reflexivity|].
        constructor; [eexists; reflexivity|constructor].
    + rewrite Hl. exists l. split; [reflexivity|exact Hall].
  - intros d Hd Hne. rewrite Hd.
    rewrite bool_decide_eq_false_2 by exact Hne. reflexivity.
  - intros Hd. rewrite Hd.
    rewrite bool_decide_eq_true_2 by reflexivity. reflexivity.
  - intros l Hl. rewrite Hl. reflexivity.
Qed.

(** C2: the empty data line does not decode to the empty dict: the one chunk
    of [split] is the empty string, stored as a key without value.  The
    response built from it holds one record, whatever the status line. *)
Theorem empty_data_line_one_record (status : string) :
  parse_data "" = PDict {[ "" := VNone ]} /\
  parse_data "" <> PDict ∅ /\
  data (TS3Response_init status "") = PList [PDict {[ "" := VNone ]}] /\
  data (TS3Response_init status "") <> PList [].
Proof.
  assert (H : parse_data "" = PDict {[ "" := VNone ]}) by (vm_compute; reflexivity).
  assert (Hd : data (TS3Response_init status "") = PList [PDict {[ "" := VNone ]}]).
  { unfold TS3Response_init. simpl data. rewrite H. reflexivity. }
  split; [exact H|]. split; [|split].
  - rewrite H. intros E.
    assert (E' : ({[ "" := VNone ]} : gmap string pyval) = ∅) by congruence.
    exact (map_non_empty_singleton _ _ E').
  - exact Hd.
  - rewrite Hd. discriminate.
Qed.

End Response.

(** ** Decoding the status line *)

Section Status.

(** A pattern whose first character is absent is never found. *)
Lemma replace_from_absent (a : ascii) (old new s : string) :
  occurs a s = false -> replace_from (String a old) new 0 s = s.
Proof.
  induction s as [|x s IH]; [reflexivity|].
  cbn [occurs]. intros H. apply orb_false_iff in H as [Hx Hs].
  cbn [replace_from String.prefix].
  destruct (ascii_dec a x) as [->|_].
  - rewrite Ascii.eqb_refl in Hx. discriminate.
  - rewrite (IH Hs). reflexivity.
Qed.

(** Without a backslash there is nothing to unescape. *)
Lemma unescape_chars_no_backslash (s : string) :
  occurs "\" s = false -> unescape_chars s = s.
Proof.
  intros H. unfold unescape_chars, ts3_escape. cbn [fold_left fst snd replace].
  repeat rewrite (replace_from_absent "\" _ _ s H). reflexivity.
Qed.

Lemma str_of_int_lacks (z : Z) (c : ascii) :
  decimal_char c = false -> occurs c (str_of_int z) = false.
Proof.
  intros Hc. destruct (occurs c (str_of_int z)) eqn:H; [|reflexivity].
  apply str_of_int_decimal in H. congruence.
Qed.

Lemma decimal_char_not_space (c : ascii) :
  decimal_char c = true -> is_space c = false.
Proof.
  destruct c as [[] [] [] [] [] [] [] []]; intros H;
    first [reflexivity | discriminate H].
Qed.

Lemma str_of_int_no_space (z : Z) : no_space (str_of_int z) = true.
Proof.
  apply no_space_of_occurs. intros c Hc.
  apply decimal_char_not_space, (str_of_int_decimal z c Hc).
Qed.

(** A chunk [key=value] stores the unescaped value under the key, also when
    the value holds further [=]. *)
Lemma parse_chunk_key_value (d : gmap string pyval) (key value : string) :
  occurs "=" key = false ->
  no_space key = true -> no_space value = true ->
  parse_chunk d (key ++ "=" ++ value) =
  <[key := VStr (unescape_chars value)]> d.
Proof.
  intros Hkey Hk Hv. unfold parse_chunk.
  rewrite strip_no_space
    by (rewrite !no_space_app, Hk, Hv; reflexivity).
  change (key ++ "=" ++ value) with (key ++ String "=" value).
  rewrite (split_app_sep "=" key value Hkey).
  pose proof (join_split "=" value) as Hjoin.
  pose proof (split_not_nil "=" value) as Hne.
  destruct (split "=" value) as [|p [|q ps]]; [contradiction| |].
  - cbn in Hjoin. subst p. reflexivity.
  - cbn [length Nat.ltb Nat.leb hd tl]. rewrite Hjoin. reflexivity.
Qed.

(** The two chunks of a status line without its header. *)
Lemma parse_chunks_status (n : Z) (msg : string) :
  no_space msg = true ->
  parse_chunks ("id=" ++ str_of_int n ++ " msg=" ++ msg) =
  <["msg" := VStr (unescape_chars msg)]> (<["id" := VStr (str_of_int n)]> ∅).
Proof.
  intros Hm. unfold parse_chunks.
  change ("id=" ++ str_of_int n ++ " msg=" ++ msg)
    with (("id=" ++ str_of_int n) ++ String " " ("msg=" ++ msg)).
  rewrite split_app_sep.
  2:{ rewrite occurs_app, str_of_int_lacks by reflexivity. reflexivity. }
  rewrite split_no_sep.
  2:{ rewrite occurs_app. cbn. destruct (occurs " " msg) eqn:E; [|reflexivity].
      exfalso. clear -Hm E. induction msg as [|c m IH]; [discriminate|].
      cbn [no_space] in Hm. apply andb_true_iff in Hm as [Hc Hm].
      cbn [occurs] in E. apply orb_true_iff in E as [E|E]; [|auto].
      apply Ascii.eqb_eq in E. subst c. discriminate. }
  cbn [fold_left].
  rewrite (parse_chunk_key_value ∅ "id" (str_of_int n))
    by (reflexivity || apply str_of_int_no_space).
  rewrite (parse_chunk_key_value _ "msg" msg) by (reflexivity || exact Hm).
  rewrite (unescape_chars_no_backslash (str_of_int n))
    by (apply str_of_int_lacks; reflexivity).
  reflexivity.
Qed.

(** C4, as the code has it: six characters are dropped, whatever they are, and
    the rest is decoded as a data line; for [id=N msg=M], with [M] free of
    whitespace and pipes and the line ending in whitespace or nothing, the
    result maps [id] to the string of the digits of [N], not converted to an
    integer, and [msg] to the unescaped [M]; [is_successful] holds exactly when
    the unescaped message is [ok]: so for [id=0 msg=ok], and not for
    [id=512 msg=invalid\scommand], whose message is [invalid command]. *)
Theorem parse_response_status (header : string) (n : Z) (msg tail line : string) :
  String.length header = 6%nat ->
  no_space msg = true -> occurs "|" msg = false -> only_space tail = true ->
  let status := header ++ ("id=" ++ str_of_int n ++ " msg=" ++ msg) ++ tail in
  parse_response status =
    PDict (<["msg" := VStr (unescape_chars msg)]>
             (<["id" := VStr (str_of_int n)]> ∅)) /\
  is_successful (TS3Response_init status line) =
    Ok (String.eqb (unescape_chars msg) "ok") /\
  is_successful (TS3Response_init "error id=0 msg=ok" line) = Ok true /\
  is_successful (TS3Response_init "error id=512 msg=invalid\scommand" line) =
    Ok false /\
  parse_response "error id=512 msg=invalid\scommand" =
    PDict (<["msg" := VStr "invalid command"]> (<["id" := VStr "512"]> ∅)).
Proof.
  intros Hlen Hm Hpipe Htail status.
  assert (Hresp : parse_response status =
            PDict (<["msg" := VStr (unescape_chars msg)]>
                     (<["id" := VStr (str_of_int n)]> ∅))).
  { unfold parse_response, status. rewrite <- Hlen, drop_chars_app.
    set (body := "id=" ++ str_of_int n ++ " msg=" ++ msg).
    assert (Hstrip : strip (body ++ tail) = body).
    { unfold strip. change (lstrip (body ++ tail)) with (body ++ tail).
      rewrite (rstrip_app_only_space _ _ Htail). unfold body.
      replace ("id=" ++ str_of_int n ++ " msg=" ++ msg)
        with (("id=" ++ str_of_int n ++ " ") ++ ("msg=" ++ msg))
        by (rewrite !app_assoc_str; reflexivity).
      assert (Hr : rstrip ("msg=" ++ msg) = "msg=" ++ msg)
        by (apply rstrip_no_space; cbn; exact Hm).
      rewrite rstrip_app_r; rewrite Hr; [reflexivity|discriminate]. }
    rewrite parse_data_single.
    - rewrite Hstrip. unfold body. rewrite (parse_chunks_status n msg Hm).
      reflexivity.
    - rewrite <- (occurs_strip_eq "|") by reflexivity. rewrite Hstrip.
      unfold body. rewrite !occurs_app, str_of_int_lacks, Hpipe by reflexivity.
      reflexivity. }
  split; [exact Hresp|]. split; [|split; [|split]].
  - unfold is_successful, TS3Response_init. cbn [response]. rewrite Hresp.
    rewrite lookup_insert_eq. reflexivity.
  - vm_compute. reflexivity.
  - vm_compute. reflexivity.
  - vm_compute. reflexivity.
Qed.

(** The status line of a failed command, as read from the channel. *)
Lemma parse_response_status_witness :
  parse_response ("error id=512 msg=invalid\scommand" ++ line_end) =
    PDict (<["msg" := VStr "invalid command"]> (<["id" := VStr "512"]> ∅)).
Proof.
  exact (proj1 (parse_response_status "error " 512 "invalid\scommand" line_end ""
                  eq_refl eq_refl eq_refl eq_refl)).
Defined.

(** C4, as stated, fails: the code of a status line is not an integer. *)
Lemma parse_response_code_not_integer :
  ~ (exists d, parse_response "error id=0 msg=ok" = PDict d /\
               d !! "id" = Some (VInt 0)).
Proof.
  intros [d [Hd Hid]].
  assert (H : parse_response "error id=0 msg=ok" =
              PDict (<["msg" := VStr "ok"]> (<["id" := VStr "0"]> ∅)))
    by (vm_compute; reflexivity).
  rewrite H in Hd. injection Hd as <-.
  rewrite lookup_insert_ne, lookup_insert_eq in Hid by discriminate.
  discriminate.
Qed.

End Status.

(** ** The transaction layer and [clientkick] *)

Section Transaction.

(** The connection test passes whatever the flag holds. *)
Lemma check_connection_passes (self : conn) : check_connection self = (Ok tt, self).
Proof. reflexivity. Qed.

(** A command that can be built is written, terminator appended, and a
    response object comes back. *)
Lemma send_command_writes command keys opts (line : string) (self : conn) :
  construct_command command keys opts = Ok line ->
  (exists r, fst (send_command command keys opts self) = Ok r) /\
  outbox (snd (send_command command keys opts self)) =
    (outbox self ++ [(line ++ line_end)%string])%list /\
  _connected (snd (send_command command keys opts self)) = _connected self.
Proof.
  intros Hline. unfold send_command, bind, lift, ret, check_connection.
  simpl. rewrite Hline. unfold telnet_write, telnet_read_until. simpl.
  destruct (inbox self) as [|first rest]; simpl.
  - eauto.
  - destruct (startswith "error" first); simpl; [eauto|].
    destruct rest; simpl; eauto.
Qed.

(** A command that cannot be built raises before anything is written. *)
Lemma send_command_raises command keys opts (e : exn) (self : conn) :
  construct_command command keys opts = Raise e ->
  send_command command keys opts self = (Raise e, self).
Proof.
  intros H. unfold send_command, bind, lift, check_connection. simpl.
  rewrite H. reflexivity.
Qed.

(** C3: [check_connection] lets every call through, whatever the connection
    flag holds; on a connection whose flag is false [send_command] raises
    nothing, builds the command string and writes it to the channel. *)
Theorem send_command_while_disconnected :
  (forall self, check_connection self = (Ok tt, self)) /\
  (forall lines written,
     let self := MkConn false lines written in
     fst (send_command "quit" None None self) <> Raise NoConnection /\
     (exists r, fst (send_command "quit" None None self) = Ok r) /\
     outbox (snd (send_command "quit" None None self)) =
       (written ++ [("quit" ++ line_end)%string])%list).
Proof.
  split; [reflexivity|]. intros lines written self.
  destruct (send_command_writes "quit" None None "quit" self eq_refl)
    as [[r Hr] [Hout _]].
  split; [|split].
  - rewrite Hr. discriminate.
  - exists r. exact Hr.
  - exact Hout.
Qed.

(** C5: without [clid] and [cldbid], [clientkick] raises [InvalidArguments]
    and touches nothing; with a [cldbid], it sends [clientlist] and then fails
    on [clientlist.values()] with an [AttributeError], whether or not a client
    has that database id: it never returns [False]. *)
Theorem clientkick_identification :
  (forall type message self,
     clientkick VNone VNone type message self =
       (Raise (InvalidArguments "No clid or cldbid provided"), self)) /\
  (forall clid cldbid type message self,
     truthy cldbid = true ->
     fst (clientkick clid cldbid type message self) =
       Raise (AttributeError "values") /\
     fst (clientkick clid cldbid type message self) <> Ok false /\
     outbox (snd (clientkick clid cldbid type message self)) =
       (outbox self ++ [("clientlist" ++ line_end)%string])%list).
Proof.
  split; [reflexivity|].
  intros clid cldbid type message self Hdb.
  destruct (send_command_writes "clientlist" None None "clientlist" self eq_refl)
    as [[r Hr] [Hout _]].
  assert (E : clientkick clid cldbid type message self =
              (Raise (AttributeError "values"),
               snd (send_command "clientlist" None None self))).
  { unfold clientkick. rewrite Hdb. unfold bind.
    destruct (send_command "clientlist" None None self) as [res self'].
    simpl in Hr. subst res. reflexivity. }
  rewrite E. split; [reflexivity|split; [discriminate|exact Hout]].
Qed.

Lemma take_chars_substring (n : nat) (s : string) :
  take_chars n s = substring 0 n s.
Proof.
  revert s. induction n as [|n IH]; intros [|c s]; simpl; try reflexivity.
  rewrite IH. reflexivity.
Qed.

Lemma take_chars_all (n : nat) (s : string) :
  (String.length s <= n)%nat -> take_chars n s = s.
Proof.
  revert s. induction n as [|n IH]; intros [|c s]; simpl; try reflexivity.
  - lia.
  - intros H. rewrite IH by lia. reflexivity.
Qed.

Lemma take_chars_length (n : nat) (s : string) :
  (n <= String.length s)%nat -> String.length (take_chars n s) = n.
Proof.
  revert s. induction n as [|n IH]; intros [|c s]; simpl; try reflexivity.
  - lia.
  - intros H. rewrite IH by lia. reflexivity.
Qed.

Lemma take_drop_chars (n : nat) (s : string) :
  s = take_chars n s ++ drop_chars n s.
Proof.
  revert s. induction n as [|n IH]; intros [|c s]; simpl; try reflexivity.
  rewrite app_cons. f_equal. apply IH.
Qed.

(** The message [clientkick] computes is the one of the contract. *)
Lemma kick_message_spec (message : option string) :
  match message with
  | None | Some "" => ""
  | Some m => take_chars 40 m
  end = kick_reasonmsg_spec message.
Proof.
  destruct message as [m|]; [|reflexivity]. unfold kick_reasonmsg_spec.
  destruct (Nat.leb_spec (String.length m) 40) as [Hle|Hgt].
  - destruct m; [reflexivity|]. apply take_chars_all, Hle.
  - destruct m; [simpl in Hgt; lia|]. apply take_chars_substring.
Qed.

(** C9: a kick by session id writes exactly one line, the [clientkick]
    command whose [reasonmsg] is the message cut to its first 40 characters:
    a longer message is sent as its prefix of length 40, a message of at most
    40 characters unchanged, an absent message as the empty string. *)
Theorem clientkick_truncates_message
    (clid cldbid type : pyval) (message : option string) (self : conn) :
  truthy clid = true -> truthy cldbid = false -> type <> VNone ->
  let sent := kick_reasonmsg_spec message in
  (exists line,
     construct_command "clientkick"
       (Some [("clid", Scalar clid); ("reasonid", Scalar type);
              ("reasonmsg", Scalar (VStr sent))]) None = Ok line /\
     outbox (snd (clientkick clid cldbid type message self)) =
       (outbox self ++ [(line ++ line_end)%string])%list) /\
  (message = None -> sent = "") /\
  (forall m, message = Some m -> (String.length m <= 40)%nat -> sent = m) /\
  (forall m, message = Some m -> (40 < String.length m)%nat ->
     String.length sent = 40 /\ exists rest, m = sent ++ rest).
Proof.
  intros Hclid Hdb Htype sent. split; [|split; [|split]].
  - assert (Hline : exists line,
      construct_command "clientkick"
        (Some [("clid", Scalar clid); ("reasonid", Scalar type);
               ("reasonmsg", Scalar (VStr sent))]) None = Ok line).
    { destruct clid; [discriminate| |]; (destruct type; [contradiction| |]);
        eexists; reflexivity. }
    destruct Hline as [line Hline]. exists line. split; [exact Hline|].
    unfold clientkick. rewrite Hdb, Hclid, kick_message_spec.
    fold sent. unfold bind.
    destruct (send_command_writes _ _ _ line self Hline) as [[r Hr] [Hout _]].
    destruct (send_command "clientkick" _ None self) as [res self'] eqn:Hs.
    simpl in Hr, Hout. subst res. unfold lift.
    destruct (is_successful r); exact Hout.
  - intros ->. reflexivity.
  - intros m -> Hle. unfold sent, kick_reasonmsg_spec.
    apply Nat.leb_le in Hle. rewrite Hle. reflexivity.
  - intros m -> Hgt. unfold sent, kick_reasonmsg_spec.
    assert (Hf : (String.length m <=? 40)%nat = false) by (apply Nat.leb_gt; exact Hgt).
    rewrite Hf, <- take_chars_substring. split.
    + apply take_chars_length. lia.
    + exists (drop_chars 40 m). apply take_drop_chars.
Qed.

(** A kick of session 3 with a message of 43 characters. *)
Lemma clientkick_truncates_message_witness :
  outbox (snd (clientkick (VInt 3) VNone (VInt 5)
                 (Some "0123456789012345678901234567890123456789abc")
                 (MkConn true ["error id=0 msg=ok"] []))) =
  ["clientkick clid=3 reasonid=5 reasonmsg=0123456789012345678901234567890123456789"
     ++ line_end].
Proof.
  destruct (clientkick_truncates_message (VInt 3) VNone (VInt 5)
              (Some "0123456789012345678901234567890123456789abc")
              (MkConn true ["error id=0 msg=ok"] [])
              eq_refl eq_refl ltac:(discriminate)) as [[line [Hline Hout]] _].
  vm_compute in Hline. injection Hline as <-. exact Hout.
Defined.

End Transaction.

(** ** Encoding a command *)

Section Encode.

Lemma nested_loop_spec (key : string) (l : list pyval) (ncstr : list string) :
  Forall is_scalar l ->
  nested_loop key l ncstr = Ok (ncstr ++ map (key_value key) l)%list.
Proof.
  revert ncstr. induction l as [|v l IH]; intros ncstr Hl; simpl.
  - rewrite app_nil_r. reflexivity.
  - inversion Hl as [|? ? Hv Hl']; subst.
    destruct v as [|s|z]; [contradiction (Hv eq_refl)| |];
      simpl; rewrite (IH _ Hl'), <- app_assoc; reflexivity.
Qed.

Lemma keys_loop_spec (keys : list (string * param)) (cstr : list string) :
  Forall (fun kv => well_typed_param (snd kv)) keys ->
  keys_loop keys cstr = Ok (cstr ++ map param_token keys)%list.
Proof.
  revert cstr. induction keys as [|[key p] keys IH]; intros cstr Hk; simpl.
  - rewrite app_nil_r. reflexivity.
  - inversion Hk as [|? ? Hp Hk']; subst. simpl in Hp.
    destruct p as [v|l].
    + destruct v as [|s|z]; [contradiction (Hp eq_refl)| |];
        simpl; rewrite (IH _ Hk'), <- app_assoc; reflexivity.
    + rewrite (nested_loop_spec key l [] Hp). simpl.
      rewrite (IH _ Hk'), <- app_assoc. reflexivity.
Qed.

Lemma opts_loop_spec (opts : list string) (cstr : list string) :
  opts_loop opts cstr = (cstr ++ map option_token opts)%list.
Proof.
  revert cstr. induction opts as [|opt opts IH]; intros cstr; simpl.
  - rewrite app_nil_r. reflexivity.
  - rewrite IH, <- app_assoc. reflexivity.
Qed.

Lemma truthy_list_default {A} (o : option (list A)) :
  truthy_list o = false -> default [] o = [].
Proof. destruct o as [[|x l]|]; simpl; congruence. Qed.

(** C6: for string and integer values, [construct_command] returns the
    command name, one [key=escapedValue] token per scalar parameter in the
    order of the mapping, the elements of a list parameter as such tokens
    joined by [|], then one [-option] token per option, all joined by single
    spaces and with nothing after the last token; an integer is printed in
    decimal, its characters being digits and the sign only, and is not sent
    through the escape table. *)
Theorem construct_command_spec (command : string)
    (keys : option (list (string * param))) (opts : option (list string)) :
  Forall (fun kv => well_typed_param (snd kv)) (default [] keys) ->
  construct_command command keys opts =
    Ok (command_line_spec command (default [] keys) (default [] opts)) /\
  (forall z, _escape_str (VInt z) = Ok (str_of_int z)) /\
  (forall z c, occurs c (str_of_int z) = true -> decimal_char c = true).
Proof.
  intros Hk. split; [|split].
  - unfold construct_command, command_line_spec.
    destruct (truthy_list keys) eqn:Tk.
    + rewrite (keys_loop_spec _ _ Hk). simpl rbind.
      destruct (truthy_list opts) eqn:To.
      * rewrite opts_loop_spec. reflexivity.
      * rewrite (truthy_list_default _ To), app_nil_r. reflexivity.
    + rewrite (truthy_list_default _ Tk). simpl rbind.
      destruct (truthy_list opts) eqn:To.
      * rewrite opts_loop_spec. reflexivity.
      * rewrite (truthy_list_default _ To). reflexivity.
  - reflexivity.
  - apply str_of_int_decimal.
Qed.

(** The command [use sid=1 -virtual]. *)
Lemma construct_command_spec_witness :
  construct_command "use" (Some [("sid", Scalar (VInt 1))]) (Some ["virtual"]) =
    Ok "use sid=1 -virtual".
Proof.
  refine (proj1 (construct_command_spec "use"
            (Some [("sid", Scalar (VInt 1))]) (Some ["virtual"]) _)).
  repeat constructor. discriminate.
Defined.

End Encode.

(** ** One command, one line *)

Section OneLine.

Lemma replace_from_cons (old new : string) (c : ascii) (s : string) :
  replace_from old new 0 (String c s) =
  if String.prefix old (String c s)
  then new ++ replace_from old new (String.length old - 1) s
  else String c (replace_from old new 0 s).
Proof. reflexivity. Qed.

(** Replacing brings in the characters of [new] only. *)
Lemma occurs_replace_from (c : ascii) (old new : string) (skip : nat) (s : string) :
  occurs c new = false -> occurs c s = false ->
  occurs c (replace_from old new skip s) = false.
Proof.
  intros Hnew. revert skip. induction s as [|x s IH]; intros skip Hs.
  - reflexivity.
  - cbn [occurs] in Hs. apply orb_false_iff in Hs as [Hx Hs].
    destruct skip as [|k]; [|apply IH, Hs].
    rewrite replace_from_cons. destruct (String.prefix old (String x s)).
    + rewrite occurs_app, Hnew. apply IH, Hs.
    + cbn [occurs]. rewrite Hx. apply IH, Hs.
Qed.

Lemma occurs_interleave (c : ascii) (new s : string) :
  occurs c new = false -> occurs c s = false ->
  occurs c (interleave new s) = false.
Proof.
  intros Hnew. induction s as [|x s IH]; intros Hs; cbn [interleave].
  - exact Hnew.
  - cbn [occurs] in Hs. apply orb_false_iff in Hs as [Hx Hs].
    rewrite occurs_app, Hnew. cbn [occurs]. rewrite Hx. apply IH, Hs.
Qed.

Lemma occurs_replace (c : ascii) (old new s : string) :
  occurs c new = false -> occurs c s = false ->
  occurs c (replace old new s) = false.
Proof.
  intros Hnew Hs. destruct old; cbn [replace].
  - apply occurs_interleave; assumption.
  - apply occurs_replace_from; assumption.
Qed.

(** Replacing a character removes it, when [new] does not hold it. *)
Lemma occurs_replace_char (c : ascii) (new s : string) :
  occurs c new = false ->
  occurs c (replace (String c "") new s) = false.
Proof.
  intros Hnew. cbn [replace]. induction s as [|x s IH]; [reflexivity|].
  rewrite replace_from_cons. cbn [String.prefix String.length Nat.sub].
  destruct (ascii_dec c x) as [->|Hne].
  - rewrite prefix_nil, occurs_app, Hnew. exact IH.
  - cbn [occurs]. rewrite IH, orb_false_r.
    destruct (Ascii.eqb x c) eqn:E; [|reflexivity].
    apply Ascii.eqb_eq in E. congruence.
Qed.

(** An escaped string holds no line feed. *)
Lemma escape_chars_no_newline (s : string) :
  occurs newline (escape_chars s) = false.
Proof.
  unfold escape_chars, ts3_escape. cbn [fold_left fst snd].
  do 3 (apply occurs_replace; [reflexivity|]).
  apply (occurs_replace_char newline). reflexivity.
Qed.

Lemma str_of_int_no_newline (z : Z) : occurs newline (str_of_int z) = false.
Proof.
  destruct (occurs newline (str_of_int z)) eqn:H; [|reflexivity].
  apply str_of_int_decimal in H. discriminate.
Qed.

Lemma occurs_join (c : ascii) (sep : string) (l : list string) :
  occurs c sep = false -> Forall (fun s => occurs c s = false) l ->
  occurs c (join sep l) = false.
Proof.
  intros Hsep. unfold join. induction 1 as [|x l Hx Hl IH]; [reflexivity|].
  cbn [String.concat]. destruct l as [|y l]; [exact Hx|].
  rewrite !occurs_app, Hx, Hsep. exact IH.
Qed.

Lemma escape_str_no_newline (v : pyval) (e : string) :
  _escape_str v = Ok e -> occurs newline e = false.
Proof.
  destruct v as [|s|z]; simpl; intros H; inversion H; subst.
  - apply escape_chars_no_newline.
  - apply str_of_int_no_newline.
Qed.

Lemma nested_loop_no_newline (key : string) (l : list pyval)
    (ncstr out : list string) :
  occurs newline key = false ->
  Forall (fun s => occurs newline s = false) ncstr ->
  nested_loop key l ncstr = Ok out ->
  Forall (fun s => occurs newline s = false) out.
Proof.
  intros Hkey. revert ncstr. induction l as [|v l IH]; intros ncstr Hn H.
  - inversion H; subst. exact Hn.
  - cbn [nested_loop] in H. destruct (_escape_str v) as [e|] eqn:He; [|discriminate].
    cbn [rbind] in H.
    apply (IH (ncstr ++ [(key ++ "=" ++ e)%string])%list); [|exact H].
    apply Forall_app. split; [exact Hn|]. constructor; [|constructor].
    rewrite !occurs_app, Hkey, (escape_str_no_newline v e He). reflexivity.
Qed.

Lemma keys_loop_no_newline (keys : list (string * param))
    (cstr out : list string) :
  Forall (fun kv => occurs newline (fst kv) = false) keys ->
  Forall (fun s => occurs newline s = false) cstr ->
  keys_loop keys cstr = Ok out ->
  Forall (fun s => occurs newline s = false) out.
Proof.
  revert cstr. induction keys as [|[key p] keys IH]; intros cstr Hk Hc H.
  - inversion H; subst. exact Hc.
  - inversion Hk as [|? ? Hkey Hk']; subst. cbn [fst] in Hkey.
    cbn [keys_loop] in H. destruct p as [v|l].
    + destruct (_escape_str v) as [e|] eqn:He; [|discriminate].
      cbn [rbind] in H. apply (IH _ Hk') in H; [exact H|].
      apply Forall_app. split; [exact Hc|]. constructor; [|constructor].
      rewrite !occurs_app, Hkey, (escape_str_no_newline v e He). reflexivity.
    + destruct (nested_loop key l []) as [ncstr|] eqn:Hn; [|discriminate].
      cbn [rbind] in H. apply (IH _ Hk') in H; [exact H|].
      apply Forall_app. split; [exact Hc|]. constructor; [|constructor].
      apply occurs_join; [reflexivity|].
      apply (nested_loop_no_newline key l [] ncstr Hkey); [constructor|exact Hn].
Qed.

Lemma opts_loop_no_newline (opts : list string) (cstr : list string) :
  Forall (fun s => occurs newline s = false) opts ->
  Forall (fun s => occurs newline s = false) cstr ->
  Forall (fun s => occurs newline s = false) (opts_loop opts cstr).
Proof.
  revert cstr. induction opts as [|opt opts IH]; intros cstr Ho Hc; [exact Hc|].
  inversion Ho as [|? ? Hopt Ho']; subst. cbn [opts_loop]. apply IH; [exact Ho'|].
  apply Forall_app. split; [exact Hc|]. constructor; [|constructor].
  rewrite occurs_app, Hopt. reflexivity.
Qed.

(** C8, as the code has it: the values are escaped, the command name, the
    keys and the options are copied as they are; when none of these three
    holds a line feed, the command line holds none. *)
Theorem construct_command_one_line (command : string)
    (keys : option (list (string * param))) (opts : option (list string))
    (line : string) :
  occurs newline command = false ->
  Forall (fun kv => occurs newline (fst kv) = false) (default [] keys) ->
  Forall (fun opt => occurs newline opt = false) (default [] opts) ->
  construct_command command keys opts = Ok line ->
  occurs newline line = false.
Proof.
  intros Hc Hk Ho H. unfold construct_command in H.
  assert (Hinit : Forall (fun s => occurs newline s = false) [command])
    by (constructor; [exact Hc|constructor]).
  destruct (if truthy_list keys then keys_loop (default [] keys) [command]
            else Ok [command]) as [cstr|] eqn:Hloop; [|discriminate].
  assert (Hcstr : Forall (fun s => occurs newline s = false) cstr).
  { destruct (truthy_list keys).
    - apply (keys_loop_no_newline _ _ _ Hk Hinit Hloop).
    - inversion Hloop; subst. exact Hinit. }
  cbn [rbind] in H. inversion H; subst.
  apply occurs_join; [reflexivity|].
  destruct (truthy_list opts); [|exact Hcstr].
  apply opts_loop_no_newline; assumption.
Qed.

(** A global message of two lines, sent on one. *)
Lemma construct_command_one_line_witness :
  occurs newline
    ("gm msg=" ++ escape_chars ("first" ++ String newline "second")) = false.
Proof.
  apply (construct_command_one_line "gm"
           (Some [("msg", Scalar (VStr ("first" ++ String newline "second")))])
           None).
  - reflexivity.
  - repeat constructor.
  - constructor.
  - reflexivity.
Defined.

(** C8, as stated, fails: a line feed in the command name is copied to the
    command line. *)
Lemma construct_command_raw_newline :
  ~ (forall command keys opts line,
       construct_command command keys opts = Ok line ->
       occurs newline line = false).
Proof.
  intros H.
  specialize (H ("serverlist" ++ String newline "quit") None None _ eq_refl).
  vm_compute in H. discriminate.
Qed.

End OneLine.

(** ** More on the escaper *)

Section EscaperMore.

(** X1: on every string without backslash, unescaping an escaped string gives
    the string back. *)
Theorem escape_round_trip_no_backslash (s : string) :
  occurs "\" s = false ->
  _escape_str (VStr s) = Ok (escape_chars s) /\
  _unescape_str (VStr (escape_chars s)) = Ok s.
Proof.
  intros H. split; [reflexivity|].
  cbn [_unescape_str]. rewrite (unescape_escape_no_backslash s H). reflexivity.
Qed.

(** A message with a space, a slash, a pipe and a line feed. *)
Lemma escape_round_trip_no_backslash_witness :
  _unescape_str
    (VStr (escape_chars ("see you/later|" ++ String newline "bye"))) =
  Ok ("see you/later|" ++ String newline "bye").
Proof.
  exact (proj2 (escape_round_trip_no_backslash
                  ("see you/later|" ++ String newline "bye") eq_refl)).
Defined.

Lemma escape_chars_lacks (c : ascii) (s : string) :
  In c escaped_away -> occurs c (escape_chars s) = false.
Proof.
  intros Hc. unfold escape_chars, ts3_escape, chr. cbn [fold_left fst snd].
  cbn in Hc.
  repeat (destruct Hc as [<-|Hc];
    [repeat first [ apply occurs_replace_char; reflexivity
                  | apply occurs_replace; [reflexivity|] ] |]).
  contradiction.
Qed.

Lemma escape_chars_no_space (s : string) : no_space (escape_chars s) = true.
Proof.
  apply no_space_of_occurs. intros c Hc.
  destruct (is_space c) eqn:Hs; [|reflexivity].
  assert (In c escaped_away) as Hin.
  { destruct c as [[] [] [] [] [] [] [] []]; try discriminate Hs;
      cbn; tauto. }
  rewrite (escape_chars_lacks c s Hin) in Hc. discriminate.
Qed.

(** X2: an escaped string holds none of the nine characters that the table
    turns into a backslash and a letter; in particular no space, no pipe and
    no line feed: it is one chunk of one record on one line. *)
Theorem escape_chars_no_delimiter (s : string) :
  (forall c, In c escaped_away -> occurs c (escape_chars s) = false) /\
  no_space (escape_chars s) = true /\
  split " " (escape_chars s) = [escape_chars s] /\
  split "|" (escape_chars s) = [escape_chars s].
Proof.
  split; [|split; [|split]].
  - intros c Hc. apply escape_chars_lacks, Hc.
  - apply escape_chars_no_space.
  - apply split_no_sep, (escape_chars_lacks " " s). cbn. tauto.
  - apply split_no_sep, (escape_chars_lacks "|" s). cbn. tauto.
Qed.

Lemma length_app_str (a b : string) :
  String.length (a ++ b) = (String.length a + String.length b)%nat.
Proof.
  induction a as [|c a IH]; [reflexivity|].
  rewrite app_cons. cbn [String.length]. rewrite IH. reflexivity.
Qed.

(** X3: escaping works character by character: the escaped form of a
    concatenation is the concatenation of the escaped forms, and no character
    is lost. *)
Theorem escape_chars_concat (a b : string) :
  escape_chars (a ++ b) = escape_chars a ++ escape_chars b /\
  (String.length (a ++ b) <= String.length (escape_chars (a ++ b)))%nat.
Proof.
  split; [apply escape_chars_app|].
  generalize (a ++ b). clear a b. intros s.
  induction s as [|c s IH]; [apply Nat.le_refl|].
  change (String c s) with (String c "" ++ s) at 2.
  rewrite escape_chars_app, length_app_str. cbn [String.length].
  assert (1 <= String.length (escape_chars (String c "")))%nat; [|lia].
  destruct c as [[] [] [] [] [] [] [] []]; vm_compute; lia.
Qed.

Lemma replace_char_absent (c : ascii) (new s : string) :
  occurs c s = false -> replace (String c "") new s = s.
Proof. apply replace_from_absent. Qed.

(** X4: a string holding none of the eleven characters of the table is its own
    escaped form and its own unescaped form. *)
Theorem escaper_leaves_plain_text (s : string) :
  forallb (fun c => negb (occurs c s)) table_chars = true ->
  escape_chars s = s /\ unescape_chars s = s.
Proof.
  intros H.
  assert (Hc : forall c, In c table_chars -> occurs c s = false).
  { intros c Hin. rewrite forallb_forall in H. apply negb_true_iff, H, Hin. }
  split.
  - unfold escape_chars, ts3_escape, chr. cbn [fold_left fst snd].
    repeat (rewrite (replace_char_absent _ _ s); [|apply Hc; cbn; tauto]).
    reflexivity.
  - apply unescape_chars_no_backslash, Hc. cbn. tauto.
Qed.

(** A server name. *)
Lemma escaper_leaves_plain_text_witness :
  escape_chars "TeamSpeak]I[Server" = "TeamSpeak]I[Server" /\
  unescape_chars "TeamSpeak]I[Server" = "TeamSpeak]I[Server".
Proof.
  exact (escaper_leaves_plain_text "TeamSpeak]I[Server" eq_refl).
Defined.

End EscaperMore.

(** ** More on decoding *)

Section DecodeMore.

Lemma no_space_occurs (c : ascii) (s : string) :
  no_space s = true -> is_space c = true -> occurs c s = false.
Proof.
  intros Hs Hc. induction s as [|x s IH]; [reflexivity|].
  cbn [no_space] in Hs. apply andb_true_iff in Hs as [Hx Hs].
  apply negb_true_iff in Hx. cbn [occurs].
  rewrite (IH Hs), orb_false_r.
  destruct (Ascii.eqb x c) eqn:E; [|reflexivity].
  apply Ascii.eqb_eq in E. congruence.
Qed.

Lemma concat_cons2 (sep p q : string) (ps : list string) :
  String.concat sep (p :: q :: ps) = p ++ sep ++ String.concat sep (q :: ps).
Proof. reflexivity. Qed.

(** Splitting undoes joining, when no piece holds the separator. *)
Lemma split_join (sep : ascii) (pieces : list string) :
  pieces <> [] ->
  Forall (fun p => occurs sep p = false) pieces ->
  split sep (join (String sep "") pieces) = pieces.
Proof.
  intros Hne Hall. unfold join.
  induction Hall as [|p ps Hp Hps IH]; [contradiction|].
  destruct ps as [|q ps]; [apply split_no_sep, Hp|].
  rewrite concat_cons2. norm_app.
  rewrite (split_app_sep sep p _ Hp), IH by discriminate. reflexivity.
Qed.

Lemma join_not_empty (sep : string) (pieces : list string) :
  pieces <> [] -> Forall (fun p => p <> "") pieces -> join sep pieces <> "".
Proof.
  intros Hne Hall. unfold join. destruct Hall as [|p ps Hp _]; [contradiction|].
  destruct p; [contradiction|].
  destruct ps; [discriminate|rewrite concat_cons2; discriminate].
Qed.

(** A line of non-empty pieces without whitespace, joined by single spaces,
    has nothing to strip. *)
Lemma strip_join (pieces : list string) :
  pieces <> [] ->
  Forall (fun p => p <> "") pieces ->
  Forall (fun p => no_space p = true) pieces ->
  strip (join " " pieces) = join " " pieces.
Proof.
  intros Hne Hnonempty Hns. unfold strip.
  assert (Hl : lstrip (join " " pieces) = join " " pieces).
  { unfold join. destruct pieces as [|p ps]; [contradiction|].
    inversion Hnonempty as [|? ? Hp _]; inversion Hns as [|? ? Hs _]; subst.
    destruct p as [|c p]; [contradiction|].
    cbn [no_space] in Hs. apply andb_true_iff in Hs as [Hc _].
    apply negb_true_iff in Hc.
    destruct ps; [|rewrite concat_cons2; norm_app]; cbn [String.concat lstrip];
      rewrite Hc; reflexivity. }
  rewrite Hl. clear Hl. unfold join.
  induction pieces as [|p ps IH]; [contradiction|].
  inversion Hnonempty as [|? ? Hp Hps]; inversion Hns as [|? ? Hs Hss]; subst.
  destruct ps as [|q ps]; [apply rstrip_no_space, Hs|].
  rewrite concat_cons2.
  assert (Hrest : rstrip (String.concat " " (q :: ps)) =
                  String.concat " " (q :: ps)) by (apply IH; [discriminate|assumption..]).
  assert (Hrest_ne : String.concat " " (q :: ps) <> "")
    by (apply (join_not_empty " " (q :: ps)); [discriminate|assumption]).
  rewrite rstrip_app_r; rewrite rstrip_app_r; rewrite Hrest; try reflexivity;
    try exact Hrest_ne.
  destruct (String.concat " " (q :: ps)); discriminate.
Qed.

(** A chunk without [=] stores its key without value. *)
Lemma parse_chunk_bare (d : gmap string pyval) (key : string) :
  occurs "=" key = false -> no_space key = true ->
  parse_chunk d key = <[key := VNone]> d.
Proof.
  intros Hkey Hk. unfold parse_chunk.
  rewrite (strip_no_space key Hk), (split_no_sep "=" key Hkey). reflexivity.
Qed.

Lemma wf_name_spec (key : string) :
  wf_name key = true ->
  no_space key = true /\ occurs "|" key = false /\ occurs "=" key = false.
Proof.
  unfold wf_name. intros H.
  apply andb_true_iff in H as [H H3]. apply andb_true_iff in H as [H1 H2].
  apply negb_true_iff in H2, H3. auto.
Qed.

Lemma wf_chunk_spec (kv : string * option string) :
  wf_chunk kv = true ->
  chunk_token kv <> "" /\ no_space (chunk_token kv) = true /\
  occurs "|" (chunk_token kv) = false /\
  forall d, parse_chunk d (chunk_token kv) = <[fst kv := chunk_value kv]> d.
Proof.
  destruct kv as [key [value|]]; unfold wf_chunk, chunk_token, chunk_value;
    cbn [fst snd]; intros H; apply andb_true_iff in H as [Hn Hv];
    destruct (wf_name_spec key Hn) as [Hs [Hp He]].
  - apply andb_true_iff in Hv as [Hvs Hvp]. apply negb_true_iff in Hvp.
    split; [|split; [|split]].
    + destruct key; discriminate.
    + rewrite !no_space_app, Hs, Hvs. reflexivity.
    + rewrite !occurs_app, Hp, Hvp. reflexivity.
    + intros d. apply parse_chunk_key_value; assumption.
  - apply negb_true_iff, String.eqb_neq in Hv.
    split; [exact Hv|]. split; [exact Hs|]. split; [exact Hp|].
    intros d. apply parse_chunk_bare; assumption.
Qed.

Lemma fold_parse_chunk (kvs : list (string * option string))
    (d : gmap string pyval) :
  forallb wf_chunk kvs = true ->
  fold_left parse_chunk (map chunk_token kvs) d =
  fold_left (fun d kv => <[fst kv := chunk_value kv]> d) kvs d.
Proof.
  revert d. induction kvs as [|kv kvs IH]; intros d H; [reflexivity|].
  cbn [forallb] in H. apply andb_true_iff in H as [Hkv Hkvs].
  cbn [map fold_left].
  rewrite (proj2 (proj2 (proj2 (wf_chunk_spec kv Hkv)))). apply IH, Hkvs.
Qed.

(** A line of well-formed chunks decodes to the dict that stores them one
    after the other. *)
Lemma parse_data_chunks (kvs : list (string * option string)) :
  kvs <> [] -> forallb wf_chunk kvs = true ->
  parse_data (join " " (map chunk_token kvs)) =
  PDict (fold_left (fun d kv => <[fst kv := chunk_value kv]> d) kvs ∅).
Proof.
  intros Hne Hwf.
  assert (Hall : Forall (fun kv => wf_chunk kv = true) kvs)
    by (apply Forall_forall; intros kv Hin; rewrite forallb_forall in Hwf;
        apply Hwf, list_elem_of_In, Hin).
  assert (Hmap : map chunk_token kvs <> [])
    by (destruct kvs; [contradiction|discriminate]).
  rewrite parse_data_single.
  - rewrite strip_join; [| exact Hmap | |].
    + unfold parse_chunks. rewrite split_join; [| exact Hmap |].
      * apply f_equal, fold_parse_chunk, Hwf.
      * apply Forall_map. eapply Forall_impl; [exact Hall|].
        intros kv Hkv. apply no_space_occurs; [|reflexivity].
        apply (wf_chunk_spec kv Hkv).
    + apply Forall_map. eapply Forall_impl; [exact Hall|].
      intros kv Hkv. apply (wf_chunk_spec kv Hkv).
    + apply Forall_map. eapply Forall_impl; [exact Hall|].
      intros kv Hkv. apply (wf_chunk_spec kv Hkv).
  - apply occurs_join; [reflexivity|].
    apply Forall_map. eapply Forall_impl; [exact Hall|].
    intros kv Hkv. apply (wf_chunk_spec kv Hkv).
Qed.

(** X5: a data line made of chunks separated by single spaces, each a key
    alone or [key=value] (the value may hold further [=]), decodes to the dict
    that stores the chunks from left to right: a key alone gets [None], a key
    with a value gets the unescaped value as a string. *)
Theorem parse_data_record (kvs : list (string * option string)) :
  kvs <> [] -> forallb wf_chunk kvs = true ->
  parse_data (join " " (map chunk_token kvs)) =
    PDict (fold_left (fun d kv => <[fst kv := chunk_value kv]> d) kvs ∅) /\
  forall depth, (1 <= depth)%nat ->
    parse_data_rec depth (join " " (map chunk_token kvs)) =
    Some (parse_data (join " " (map chunk_token kvs))).
Proof.
  intros Hne Hwf. split; [apply parse_data_chunks; assumption|].
  intros depth Hd. destruct depth as [|depth]; [lia|].
  assert (Hp : occurs "|" (join " " (map chunk_token kvs)) = false).
  { apply occurs_join; [reflexivity|]. apply Forall_map, Forall_forall.
    intros kv Hin. rewrite forallb_forall in Hwf.
    apply (wf_chunk_spec kv), Hwf, list_elem_of_In, Hin. }
  rewrite (parse_data_rec_single depth _ Hp), (parse_data_single _ Hp).
  reflexivity.
Qed.

(** A flag, and a value with an equals sign and an escaped space. *)
Lemma parse_data_record_witness :
  parse_data "virtualserver_autostart key=a=b\sc" =
  PDict (<["key" := VStr "a=b c"]> (<["virtualserver_autostart" := VNone]> ∅)).
Proof.
  exact (proj1 (parse_data_record
                  [("virtualserver_autostart", None); ("key", Some "a=b\sc")]
                  ltac:(discriminate) eq_refl)).
Defined.

(** X6: when a key comes more than once in a record, its last chunk decides:
    whatever chunks come before, the key of the last chunk holds the last
    chunk's value. *)
Theorem parse_data_last_wins (kvs : list (string * option string))
    (last : string * option string) :
  forallb wf_chunk (kvs ++ [last]) = true ->
  exists d, parse_data (join " " (map chunk_token (kvs ++ [last]))) = PDict d /\
            d !! fst last = Some (chunk_value last).
Proof.
  intros Hwf. eexists. split.
  - apply parse_data_chunks; [|exact Hwf]. destruct kvs; discriminate.
  - rewrite fold_left_app. cbn [fold_left]. apply lookup_insert_eq.
Qed.

(** The same key twice. *)
Lemma parse_data_last_wins_witness :
  exists d, parse_data "name=a clid=1 name=b" = PDict d /\
            d !! "name" = Some (VStr "b").
Proof.
  exact (parse_data_last_wins [("name", Some "a"); ("clid", Some "1")]
           ("name", Some "b") eq_refl).
Defined.

End DecodeMore.

(** ** Encoding, then decoding *)

Section RoundTrip.

(** The command line of a command with scalar parameters and no option. *)
Lemma construct_command_scalars (command : string) (kvs : list (string * pyval)) :
  forallb (fun kv => plain_value (snd kv)) kvs = true ->
  construct_command command
    (Some (map (fun kv => (fst kv, Scalar (snd kv))) kvs)) None =
  Ok (join " " (command :: map (fun kv => key_value (fst kv) (snd kv)) kvs)).
Proof.
  intros H. unfold construct_command.
  destruct kvs as [|kv kvs]; [reflexivity|].
  assert (Hwt : Forall (fun kv => well_typed_param (snd kv))
                  (map (fun kv => (fst kv, Scalar (snd kv))) (kv :: kvs))).
  { apply Forall_map, Forall_forall. intros x Hin. cbn.
    rewrite forallb_forall in H. apply list_elem_of_In, H in Hin.
    destruct (snd x); [discriminate Hin|discriminate|discriminate]. }
  change (truthy_list (Some (map (fun kv => (fst kv, Scalar (snd kv)))
                                 (kv :: kvs)))) with true.
  change (default [] (Some (map (fun kv => (fst kv, Scalar (snd kv)))
                                (kv :: kvs))))
    with (map (fun kv : string * pyval => (fst kv, Scalar (snd kv))) (kv :: kvs)).
  rewrite (keys_loop_spec _ _ Hwt), map_map. reflexivity.
Qed.

Lemma plain_value_escaped (v : pyval) :
  plain_value v = true ->
  no_space (escaped_value v) = true /\
  occurs "|" (escaped_value v) = false /\
  unescape_chars (escaped_value v) = value_text v.
Proof.
  destruct v as [|s|z]; cbn [plain_value escaped_value value_text];
    intros H; [discriminate| |].
  - apply negb_true_iff in H. split; [apply escape_chars_no_space|].
    split; [apply escape_chars_lacks; cbn; tauto|].
    apply unescape_escape_no_backslash, H.
  - split; [apply str_of_int_no_space|].
    split; [apply str_of_int_lacks; reflexivity|].
    apply unescape_chars_no_backslash, str_of_int_lacks. reflexivity.
Qed.

(** X7: a command line built from a command name and string or integer
    parameters, read back as a data line, gives one record: the command name
    as a key without value, and every parameter key with its value, a string
    as it was given (if it holds no backslash), an integer as the string of
    its digits. *)
Theorem encode_decode_round_trip (command : string)
    (kvs : list (string * pyval)) :
  wf_chunk (command, None) = true ->
  forallb (fun kv => wf_name (fst kv) && plain_value (snd kv)) kvs = true ->
  exists line,
    construct_command command
      (Some (map (fun kv => (fst kv, Scalar (snd kv))) kvs)) None = Ok line /\
    parse_data line =
      PDict (fold_left (fun d kv => <[fst kv := VStr (value_text (snd kv))]> d)
                       kvs {[ command := VNone ]}).
Proof.
  intros Hc Hk.
  assert (Hall : forall kv, In kv kvs ->
            wf_name (fst kv) = true /\ plain_value (snd kv) = true).
  { intros kv Hin. rewrite forallb_forall in Hk.
    apply andb_true_iff, Hk, Hin. }
  eexists. split.
  - apply construct_command_scalars, forallb_forall.
    intros kv Hin. apply (Hall kv Hin).
  - set (chunks := (command, None) ::
          map (fun kv => (fst kv, Some (escaped_value (snd kv)))) kvs).
    assert (Htok : command :: map (fun kv => key_value (fst kv) (snd kv)) kvs =
                   map chunk_token chunks).
    { unfold chunks. cbn [map]. rewrite map_map. reflexivity. }
    rewrite Htok, parse_data_chunks; [|discriminate|].
    + f_equal. unfold chunks. cbn [fold_left].
      change (<[(command, None : option string).1 :=
                chunk_value (command, None)]> ∅)
        with ({[ command := VNone ]} : gmap string pyval).
      generalize ({[ command := VNone ]} : gmap string pyval).
      clear Hk Htok chunks. induction kvs as [|kv kvs IH]; intros d; [reflexivity|].
      cbn [map fold_left]. rewrite IH by (intros x Hx; apply Hall; right; exact Hx).
      f_equal. unfold chunk_value. cbn [fst snd].
      destruct (Hall kv (or_introl eq_refl)) as [_ Hv].
      rewrite (proj2 (proj2 (plain_value_escaped _ Hv))). reflexivity.
    + unfold chunks. cbn [forallb]. rewrite Hc. cbn [andb].
      apply forallb_forall. intros x Hx. apply in_map_iff in Hx as [kv [<- Hin]].
      destruct (Hall kv Hin) as [Hn Hv].
      destruct (plain_value_escaped _ Hv) as [Hs [Hp _]].
      unfold wf_chunk. cbn [fst snd]. rewrite Hn, Hs, Hp. reflexivity.
Qed.

(** A kick, read back. *)
Lemma encode_decode_round_trip_witness :
  exists line,
    construct_command "clientkick"
      (Some [("clid", Scalar (VInt 3)); ("reasonmsg", Scalar (VStr "go away"))])
      None = Ok line /\
    parse_data line =
      PDict (<["reasonmsg" := VStr "go away"]>
               (<["clid" := VStr "3"]> {[ "clientkick" := VNone ]})).
Proof.
  exact (encode_decode_round_trip "clientkick"
           [("clid", VInt 3); ("reasonmsg", VStr "go away")] eq_refl eq_refl).
Defined.

End RoundTrip.

(** ** Whitespace around a line, number of records, odd status lines *)

Section Records.

Lemma lstrip_only_space (s : string) : only_space s = true -> lstrip s = "".
Proof.
  induction s as [|c s IH]; [reflexivity|].
  cbn [only_space lstrip]. intros H. apply andb_true_iff in H as [Hc Hs].
  rewrite Hc. apply IH, Hs.
Qed.

Lemma lstrip_app_lead (lead s : string) :
  only_space lead = true -> lstrip (lead ++ s) = lstrip s.
Proof.
  induction lead as [|c l IH]; [reflexivity|].
  cbn [only_space]. intros H. apply andb_true_iff in H as [Hc Hl].
  norm_app. cbn [lstrip]. rewrite Hc. apply IH, Hl.
Qed.

Lemma lstrip_app_tail (s tail : string) :
  only_space tail = true ->
  lstrip (s ++ tail) = match lstrip s with "" => "" | r => r ++ tail end.
Proof.
  intros Ht. induction s as [|c s IH].
  - norm_app. apply lstrip_only_space, Ht.
  - norm_app. cbn [lstrip]. destruct (is_space c); [exact IH|reflexivity].
Qed.

Lemma strip_app_space (lead s tail : string) :
  only_space lead = true -> only_space tail = true ->
  strip (lead ++ s ++ tail) = strip s.
Proof.
  intros Hl Ht. unfold strip.
  rewrite (lstrip_app_lead _ _ Hl), (lstrip_app_tail _ _ Ht).
  destruct (lstrip s) eqn:E; [reflexivity|].
  apply rstrip_app_only_space, Ht.
Qed.

(** [parse_data] looks at the stripped line only. *)
Lemma parse_data_strip (a b : string) :
  strip a = strip b -> parse_data a = parse_data b.
Proof.
  intros H.
  assert (Hp : occurs "|" a = occurs "|" b).
  { rewrite <- (occurs_strip_eq "|" a), <- (occurs_strip_eq "|" b), H
      by reflexivity. reflexivity. }
  destruct (occurs "|" b) eqn:Hb.
  - rewrite (parse_data_multi a Hp), (parse_data_multi b Hb), H. reflexivity.
  - rewrite (parse_data_single a Hp), (parse_data_single b Hb), H. reflexivity.
Qed.

(** X8: whitespace before and after a line, such as the line terminator the
    channel leaves at its end, does not change what the line decodes to,
    neither as a data line nor as a status line. *)
Theorem parse_data_ignores_outer_space (lead s tail : string) :
  only_space lead = true -> only_space tail = true ->
  parse_data (lead ++ s ++ tail) = parse_data s /\
  parse_response ("error " ++ lead ++ s ++ tail) = parse_data s.
Proof.
  intros Hl Ht.
  assert (H : parse_data (lead ++ s ++ tail) = parse_data s)
    by (apply parse_data_strip, strip_app_space; assumption).
  split; [exact H|]. unfold parse_response.
  change (drop_chars 6 ("error " ++ lead ++ s ++ tail)) with (lead ++ s ++ tail).
  exact H.
Qed.

(** A client list as it is read from the channel. *)
Lemma parse_data_ignores_outer_space_witness :
  parse_data ("" ++ "clid=1 name=a|clid=2 name=b" ++ line_end) =
  parse_data "clid=1 name=a|clid=2 name=b".
Proof.
  exact (proj1 (parse_data_ignores_outer_space ""
                  "clid=1 name=a|clid=2 name=b" line_end eq_refl eq_refl)).
Defined.

Lemma length_split (sep : ascii) (s : string) :
  length (split sep s) = S (count_char sep s).
Proof.
  induction s as [|c s IH]; [reflexivity|].
  cbn [split count_char]. pose proof (split_not_nil sep s) as Hne.
  destruct (Ascii.eqb c sep); cbn [length]; [rewrite IH; reflexivity|].
  destruct (split sep s); [contradiction|]. cbn [length] in *. exact IH.
Qed.

Lemma count_char_absent (c : ascii) (s : string) :
  occurs c s = false -> count_char c s = 0%nat.
Proof.
  induction s as [|x s IH]; [reflexivity|].
  cbn [occurs count_char]. intros H. apply orb_false_iff in H as [Hx Hs].
  rewrite Hx, (IH Hs). reflexivity.
Qed.

Lemma count_char_lstrip (c : ascii) (s : string) :
  is_space c = false -> count_char c (lstrip s) = count_char c s.
Proof.
  intros Hc. induction s as [|x s IH]; [reflexivity|].
  cbn [lstrip]. destruct (is_space x) eqn:Hx; [|reflexivity].
  cbn [count_char]. rewrite (is_space_neq x c Hx Hc). exact IH.
Qed.

Lemma count_char_rstrip (c : ascii) (s : string) :
  is_space c = false -> count_char c (rstrip s) = count_char c s.
Proof.
  intros Hc. induction s as [|x s IH]; [reflexivity|].
  cbn [rstrip count_char]. rewrite <- IH. destruct (rstrip s) eqn:Hr.
  - destruct (is_space x) eqn:Hx; cbn [count_char].
    + rewrite (is_space_neq x c Hx Hc). reflexivity.
    + reflexivity.
  - reflexivity.
Qed.

(** X9: the response to any pair of lines holds as many records as the data
    line has pipes, plus one, and none of the records is empty: there is no
    response without record. *)
Theorem TS3Response_record_count (status line : string) :
  exists records,
    data (TS3Response_init status line) = PList records /\
    length records = S (count_char "|" line) /\
    Forall (fun r => exists d, r = PDict d /\ d <> ∅) records.
Proof.
  unfold TS3Response_init. cbn [data].
  destruct (occurs "|" line) eqn:Hp.
  - rewrite (parse_data_multi line Hp). eexists. split; [reflexivity|]. split.
    + rewrite length_map, length_split. unfold strip.
      rewrite count_char_rstrip, count_char_lstrip by reflexivity. reflexivity.
    + apply Forall_map, Forall_forall. intros part _. eexists.
      split; [reflexivity|apply parse_chunks_nonempty].
  - rewrite (parse_data_single line Hp). unfold truthy_dict.
    rewrite bool_decide_eq_false_2 by apply parse_chunks_nonempty.
    eexists. split; [reflexivity|]. split.
    + rewrite (count_char_absent _ _ Hp). reflexivity.
    + constructor; [|constructor]. eexists.
      split; [reflexivity|apply parse_chunks_nonempty].
Qed.

(** X10: a status line with a pipe after its first six characters decodes to
    a list, and asking such a response whether it is successful raises a
    [TypeError]. *)
Theorem is_successful_pipe_status (status line : string) :
  occurs "|" (drop_chars 6 status) = true ->
  is_successful (TS3Response_init status line) = Raise TypeError.
Proof.
  intros H. unfold is_successful, TS3Response_init, parse_response.
  cbn [response]. rewrite (parse_data_multi _ H). reflexivity.
Qed.

(** A status line whose message holds a raw pipe. *)
Lemma is_successful_pipe_status_witness :
  is_successful (TS3Response_init "error id=0 msg=a|b" "") = Raise TypeError.
Proof.
  exact (is_successful_pipe_status "error id=0 msg=a|b" "" eq_refl).
Defined.

End Records.

(** ** The facade over the transaction *)

Section Facade.

(** One transaction: the command line is written, the answer is read, one
    line or two, and what follows the answer stays in the channel. *)
Lemma send_command_answer command keys opts (line status : string)
    (dataline : option string) (rest : list string) (self : conn) :
  construct_command command keys opts = Ok line ->
  startswith "error" status = true -> is_data_line dataline = true ->
  inbox self = (answer_lines dataline status ++ rest)%list ->
  send_command command keys opts self =
  (Ok (TS3Response_init status (default "" dataline)),
   MkConn (_connected self) rest (outbox self ++ [(line ++ line_end)%string])).
Proof.
  intros Hline Hst Hd Hin. unfold send_command, bind, lift, ret, check_connection.
  cbn [truthy_attr negb]. rewrite Hline.
  unfold telnet_write, telnet_read_until. cbn [inbox outbox _connected].
  rewrite Hin. destruct dataline as [d|]; cbn [answer_lines app default].
  - cbn [is_data_line] in Hd. rewrite Hd. cbn [inbox outbox _connected].
    reflexivity.
  - rewrite Hst. reflexivity.
Qed.


(** The status line [error id=N msg=M]: what it decodes to. *)
Lemma parse_response_status_line (n : Z) (msg tail : string) :
  no_space msg = true -> occurs "|" msg = false -> only_space tail = true ->
  parse_response (status_line n msg tail) =
  PDict (<["msg" := VStr (unescape_chars msg)]>
           (<["id" := VStr (str_of_int n)]> ∅)).
Proof.
  intros Hm Hpipe Htail. unfold parse_response, status_line.
  change (drop_chars 6 ("error " ++ ("id=" ++ str_of_int n ++ " msg=" ++ msg) ++ tail))
    with ("" ++ ("id=" ++ str_of_int n ++ " msg=" ++ msg) ++ tail).
  rewrite (parse_data_strip _ ("id=" ++ str_of_int n ++ " msg=" ++ msg))
    by (apply strip_app_space; [reflexivity|exact Htail]).
  replace ("id=" ++ str_of_int n ++ " msg=" ++ msg)
    with (join " " (map chunk_token
                      [("id", Some (str_of_int n)); ("msg", Some msg)]))
    by (cbn [map chunk_token fst snd join String.concat];
        rewrite !app_assoc_str; reflexivity).
  rewrite parse_data_chunks; [|discriminate|].
  - cbn [fold_left chunk_value fst snd].
    rewrite (unescape_chars_no_backslash (str_of_int n))
      by (apply str_of_int_lacks; reflexivity).
    reflexivity.
  - cbn [forallb]. unfold wf_chunk. cbn [fst snd].
    change (wf_name "id") with true. change (wf_name "msg") with true.
    rewrite str_of_int_no_space, str_of_int_lacks, Hm, Hpipe by reflexivity.
    reflexivity.
Qed.

Lemma report_answer command keys (line : string) (n : Z) (msg tail : string)
    (dataline : option string) (rest : list string) (self : conn) :
  construct_command command keys None = Ok line ->
  no_space msg = true -> occurs "|" msg = false -> only_space tail = true ->
  is_data_line dataline = true ->
  inbox self = (answer_lines dataline (status_line n msg tail) ++ rest)%list ->
  report command keys self =
  (Ok (String.eqb (unescape_chars msg) "ok"),
   MkConn (_connected self) rest (outbox self ++ [(line ++ line_end)%string])).
Proof.
  intros Hline Hm Hp Ht Hd Hin. unfold report, bind.
  rewrite (send_command_answer _ _ _ line (status_line n msg tail) dataline rest
             self Hline eq_refl Hd Hin).
  unfold lift, is_successful, TS3Response_init. cbn [response].
  rewrite (parse_response_status_line n msg tail Hm Hp Ht), lookup_insert_eq.
  reflexivity.
Qed.


(** The command line of a method exists as soon as no argument is [None]. *)
Lemma construct_command_not_none command (kvs : list (string * pyval)) :
  forallb (fun kv => negb (is_none (snd kv))) kvs = true ->
  exists line,
    construct_command command
      (Some (map (fun kv => (fst kv, Scalar (snd kv))) kvs)) None = Ok line.
Proof.
  intros H. unfold construct_command.
  destruct kvs as [|kv kvs]; [eexists; reflexivity|].
  change (truthy_list (Some (map (fun kv => (fst kv, Scalar (snd kv)))
                                 (kv :: kvs)))) with true.
  change (default [] (Some (map (fun kv => (fst kv, Scalar (snd kv)))
                                (kv :: kvs))))
    with (map (fun kv : string * pyval => (fst kv, Scalar (snd kv))) (kv :: kvs)).
  rewrite keys_loop_spec; [eexists; reflexivity|].
  apply Forall_map, Forall_forall. intros x Hin. cbn.
  rewrite forallb_forall in H. apply list_elem_of_In, H in Hin.
  destruct (snd x); [discriminate Hin|discriminate|discriminate].
Qed.

(** The kick by session id is such a report too. *)
Lemma clientkick_by_clid (clid type : pyval) (message : option string) :
  truthy clid = true ->
  clientkick clid VNone type message =
  report "clientkick"
    (Some (map (fun kv => (fst kv, Scalar (snd kv)))
       [("clid", clid); ("reasonid", type);
        ("reasonmsg", VStr (kick_reasonmsg_spec message))])).
Proof.
  intros Hc. unfold clientkick. cbn [truthy]. rewrite Hc, kick_message_spec.
  reflexivity.
Qed.

(** X11: when the server answers a command with an optional data line and the
    status line [error id=N msg=M], each boolean method of the facade returns
    whether the unescaped [M] is [ok], whatever [N] is, and leaves in the
    channel what follows the answer. *)
Theorem facade_reports_status (n : Z) (msg tail : string)
    (dataline : option string) (rest : list string) (self : conn) :
  no_space msg = true -> occurs "|" msg = false -> only_space tail = true ->
  is_data_line dataline = true ->
  inbox self = (answer_lines dataline (status_line n msg tail) ++ rest)%list ->
  let answer := String.eqb (unescape_chars msg) "ok" in
  (forall u p, is_none u = false -> is_none p = false ->
     fst (login u p self) = Ok answer /\ inbox (snd (login u p self)) = rest) /\
  (forall m, is_none m = false ->
     fst (gm m self) = Ok answer /\ inbox (snd (gm m self)) = rest) /\
  (forall i, is_none i = false ->
     fst (use i self) = Ok answer /\ inbox (snd (use i self)) = rest) /\
  (forall c m, is_none c = false -> is_none m = false ->
     fst (clientpoke c m self) = Ok answer /\
     inbox (snd (clientpoke c m self)) = rest) /\
  (forall c t m, truthy c = true -> is_none t = false ->
     fst (clientkick c VNone t m self) = Ok answer /\
     inbox (snd (clientkick c VNone t m self)) = rest).
Proof.
  intros Hm Hp Ht Hd Hin answer.
  assert (Hrep : forall command kvs,
            forallb (fun kv => negb (is_none (snd kv))) kvs = true ->
            let call := report command
                          (Some (map (fun kv => (fst kv, Scalar (snd kv))) kvs)) in
            fst (call self) = Ok answer /\ inbox (snd (call self)) = rest).
  { intros command kvs Hk call.
    destruct (construct_command_not_none command kvs Hk) as [line Hline].
    unfold call.
    rewrite (report_answer _ _ line n msg tail dataline rest self
               Hline Hm Hp Ht Hd Hin).
    split; reflexivity. }
  split; [|split; [|split; [|split]]].
  - intros u p Hu Hpw.
    apply (Hrep "login" [("client_login_name", u); ("client_login_password", p)]).
    cbn. rewrite Hu, Hpw. reflexivity.
  - intros m Hmsg. apply (Hrep "gm" [("msg", m)]). cbn. rewrite Hmsg. reflexivity.
  - intros i Hi. apply (Hrep "use" [("sid", i)]). cbn. rewrite Hi. reflexivity.
  - intros c m Hc Hmsg. apply (Hrep "clientpoke" [("clid", c); ("msg", m)]).
    cbn. rewrite Hc, Hmsg. reflexivity.
  - intros c t m Hc Htype. rewrite (clientkick_by_clid c t m Hc).
    apply (Hrep "clientkick").
    cbn. rewrite Htype. destruct c; [discriminate Hc|reflexivity|reflexivity].
Qed.

(** A refused login, with the next line already waiting. *)
Lemma facade_reports_status_witness :
  fst (login (VStr "serveradmin") (VStr "secret")
         (MkConn true
            [status_line 520 "invalid\sloginname\sor\spassword" line_end;
             "notifycliententerview"] [])) = Ok false.
Proof.
  exact (proj1 (proj1 (facade_reports_status 520
           "invalid\sloginname\sor\spassword" line_end None
           ["notifycliententerview"]
           (MkConn true
              [status_line 520 "invalid\sloginname\sor\spassword" line_end;
               "notifycliententerview"] [])
           eq_refl eq_refl eq_refl eq_refl eq_refl)
           (VStr "serveradmin") (VStr "secret") eq_refl eq_refl)).
Defined.



End Facade.

(** ** The client list *)

Section ClientList.

(** [clientlist] after its transaction. *)
Lemma clientlist_answer (n : Z) (msg tail : string) (dataline : option string)
    (rest : list string) (self : conn) :
  no_space msg = true -> occurs "|" msg = false -> only_space tail = true ->
  is_data_line dataline = true ->
  inbox self = (answer_lines dataline (status_line n msg tail) ++ rest)%list ->
  fst (clientlist self) =
  if String.eqb (unescape_chars msg) "ok" then
    match data (TS3Response_init (status_line n msg tail) (default "" dataline)) with
    | PList records => index_clients records ∅
    | PDict d => if truthy_dict d then Raise TypeError else Ok ∅
    end
  else Ok ∅.
Proof.
  intros Hm Hp Ht Hd Hin. unfold clientlist, bind.
  rewrite (send_command_answer "clientlist" None None "clientlist"
             (status_line n msg tail) dataline rest self eq_refl eq_refl Hd Hin).
  unfold lift at 1. unfold is_successful at 1.
  unfold TS3Response_init at 1. cbn [response].
  rewrite (parse_response_status_line n msg tail Hm Hp Ht), lookup_insert_eq.
  cbn [pyval_eqb]. destruct (String.eqb (unescape_chars msg) "ok"); [|reflexivity].
  destruct (data _) as [d|records]; [destruct (truthy_dict d)|]; reflexivity.
Qed.

(** X13: when the status line of the answer does not say [ok], [clientlist]
    returns the empty mapping and raises nothing, whatever the data line. *)
Theorem clientlist_failure_empty (n : Z) (msg tail : string)
    (dataline : option string) (rest : list string) (self : conn) :
  no_space msg = true -> occurs "|" msg = false -> only_space tail = true ->
  is_data_line dataline = true ->
  inbox self = (answer_lines dataline (status_line n msg tail) ++ rest)%list ->
  String.eqb (unescape_chars msg) "ok" = false ->
  fst (clientlist self) = Ok ∅.
Proof.
  intros Hm Hp Ht Hd Hin Hno.
  rewrite (clientlist_answer n msg tail dataline rest self Hm Hp Ht Hd Hin), Hno.
  reflexivity.
Qed.

(** No virtual server selected. *)
Lemma clientlist_failure_empty_witness :
  fst (clientlist (MkConn true
         [status_line 1799 "invalid\sserverID" line_end] [])) = Ok ∅.
Proof.
  exact (clientlist_failure_empty 1799 "invalid\sserverID" line_end None []
           (MkConn true [status_line 1799 "invalid\sserverID" line_end] [])
           eq_refl eq_refl eq_refl eq_refl eq_refl eq_refl).
Defined.

(** X14: when the server answers [clientlist] with the status line alone and
    the status says [ok], the one record the empty data line gives has no
    [clid], and [clientlist] raises [KeyError] for [clid] instead of
    returning an empty mapping. *)
Theorem clientlist_success_without_data (n : Z) (msg tail : string)
    (rest : list string) (self : conn) :
  no_space msg = true -> occurs "|" msg = false -> only_space tail = true ->
  inbox self = (status_line n msg tail :: rest)%list ->
  String.eqb (unescape_chars msg) "ok" = true ->
  fst (clientlist self) = Raise (KeyError "clid").
Proof.
  intros Hm Hp Ht Hin Hok.
  rewrite (clientlist_answer n msg tail None rest self Hm Hp Ht eq_refl Hin), Hok.
  reflexivity.
Qed.

(** A server without client. *)
Lemma clientlist_success_without_data_witness :
  fst (clientlist (MkConn true [status_line 0 "ok" line_end] [])) =
  Raise (KeyError "clid").
Proof.
  exact (clientlist_success_without_data 0 "ok" line_end []
           (MkConn true [status_line 0 "ok" line_end] [])
           eq_refl eq_refl eq_refl eq_refl eq_refl).
Defined.

Lemma index_clients_keyed (records : list parsed)
    (acc m : gmap pyval (gmap string pyval)) :
  (forall k d, acc !! k = Some d -> d !! "clid" = Some k) ->
  index_clients records acc = Ok m ->
  forall k d, m !! k = Some d -> d !! "clid" = Some k.
Proof.
  revert acc. induction records as [|r records IH]; intros acc Hacc H.
  - inversion H; subst. exact Hacc.
  - destruct r as [client|l]; [|discriminate H].
    cbn [index_clients] in H. unfold getitem in H.
    destruct (client !! "clid") as [clid|] eqn:Hclid; [|discriminate H].
    cbn [rbind] in H. apply (IH (<[clid := client]> acc)); [|exact H].
    intros k d Hk. destruct (decide (clid = k)) as [<-|Hne].
    + rewrite lookup_insert_eq in Hk. inversion Hk; subst. exact Hclid.
    + rewrite lookup_insert_ne in Hk by exact Hne. apply Hacc, Hk.
Qed.

(** X15: in every mapping [clientlist] returns, each record sits under its own
    [clid]: the key of an entry is the value its record holds for [clid]. *)
Theorem clientlist_keyed_by_clid (self : conn)
    (m : gmap pyval (gmap string pyval)) :
  fst (clientlist self) = Ok m ->
  forall clid client, m !! clid = Some client -> client !! "clid" = Some clid.
Proof.
  unfold clientlist, bind.
  destruct (send_command "clientlist" None None self) as [[r|e] self'];
    [|discriminate].
  unfold lift at 1. destruct (is_successful r) as [[|]|e]; [| |discriminate].
  - destruct (data r) as [d|records].
    + destruct (truthy_dict d); [discriminate|].
      intros H. inversion H; subst. intros clid client Hl.
      rewrite lookup_empty in Hl. discriminate.
    + unfold lift. cbn [fst]. apply index_clients_keyed.
      intros k d Hl. rewrite lookup_empty in Hl. discriminate.
  - intros H. inversion H; subst. intros clid client Hl.
    rewrite lookup_empty in Hl. discriminate.
Qed.

(** Two clients; the entry under the second one's id. *)
Lemma clientlist_keyed_by_clid_witness :
  ({[ "clid" := VStr "2"; "client_nickname" := VStr "b" ]}
     : gmap string pyval) !! "clid" = Some (VStr "2").
Proof.
  apply (clientlist_keyed_by_clid
           (MkConn true
              ["clid=1 client_nickname=a|clid=2 client_nickname=b";
               status_line 0 "ok" line_end] [])
           (<[VStr "2" := {[ "clid" := VStr "2"; "client_nickname" := VStr "b" ]}]>
              {[ VStr "1" := {[ "clid" := VStr "1"; "client_nickname" := VStr "a" ]} ]})).
  - vm_compute. reflexivity.
  - vm_compute. reflexivity.
Defined.

End ClientList.

(** ** Connecting, constructing, and calls that are refused *)

Section Connect.


Lemma connect_opened (ip : string) (port : Z) (lines : list string) :
  connect ip port (Some lines) =
  Ok (endswith banner (hd "" lines),
      MkConn (endswith banner (hd "" lines)) (tl lines) []).
Proof.
  unfold connect, telnet_read_until. fold banner.
  destruct lines as [|greeting rest]; cbn [inbox outbox _connected hd tl].
  - reflexivity.
  - destruct (endswith banner greeting); reflexivity.
Qed.


Lemma report_writes command keys (line : string) (self : conn) :
  construct_command command keys None = Ok line ->
  outbox (snd (report command keys self)) =
    (outbox self ++ [(line ++ line_end)%string])%list /\
  _connected (snd (report command keys self)) = _connected self.
Proof.
  intros Hline. unfold report, bind.
  destruct (send_command_writes command keys None line self Hline)
    as [[r Hr] [Hout Hflag]].
  destruct (send_command command keys None self) as [res self'].
  cbn [fst snd] in *. subst res. unfold lift.
  destruct (is_successful r); split; assumption.
Qed.

(** X17: the constructor tries no connection without a host or with port 0;
    after a connection, it has written the one line [use sid=<id>] when the
    greeting was right and the id is positive, and nothing otherwise. *)
Theorem TS3Server_init_writes (ip : option string) (port id : Z)
    (channel : option (list string)) :
  (default "" ip = "" \/ port = 0%Z ->
     TS3Server_init ip port id channel = (Ok tt, None)) /\
  (forall self, snd (TS3Server_init ip port id channel) = Some self ->
     outbox self =
       if _connected self && (0 <? id)%Z
       then [(("use sid=" ++ str_of_int id) ++ line_end)%string]
       else []).
Proof.
  unfold TS3Server_init. split.
  - intros [H|H].
    + rewrite H. reflexivity.
    + rewrite H, andb_false_r. reflexivity.
  - destruct (negb (String.eqb (default "" ip) "") && negb (Z.eqb port 0));
      [|discriminate].
    destruct channel as [lines|]; [|discriminate].
    rewrite connect_opened.
    set (self0 := MkConn (endswith banner (hd "" lines)) (tl lines) []).
    assert (Hout : outbox self0 = []) by reflexivity.
    change (endswith banner (hd "" lines)) with (_connected self0).
    destruct (_connected self0 && (0 <? id)%Z) eqn:E.
    + destruct (report_writes "use" (Some [("sid", Scalar (VInt id))])
                  ("use sid=" ++ str_of_int id) self0 eq_refl) as [Hw Hf].
      change (use (VInt id) self0)
        with (report "use" (Some [("sid", Scalar (VInt id))]) self0).
      destruct (report "use" (Some [("sid", Scalar (VInt id))]) self0)
        as [[b|e] self']; cbn [snd] in *; intros self [= <-];
        rewrite Hf, E, Hw, Hout; reflexivity.
    + intros self [= <-]. rewrite E. exact Hout.
Qed.

End Connect.

Section Refused.

(** X18: [clientkick] takes a session id and a database id that are [None],
    0 or the empty string for no id at all: it raises [InvalidArguments] and
    sends nothing. *)
Theorem clientkick_falsy_ids (clid cldbid type : pyval)
    (message : option string) (self : conn) :
  truthy clid = false -> truthy cldbid = false ->
  clientkick clid cldbid type message self =
    (Raise (InvalidArguments "No clid or cldbid provided"), self).
Proof.
  intros Hc Hd. unfold clientkick. rewrite Hd, Hc. reflexivity.
Qed.

(** The session id 0. *)
Lemma clientkick_falsy_ids_witness :
  fst (clientkick (VInt 0) VNone (VInt 5) (Some "bye") (MkConn true [] [])) =
  Raise (InvalidArguments "No clid or cldbid provided").
Proof.
  exact (f_equal fst (clientkick_falsy_ids (VInt 0) VNone (VInt 5) (Some "bye")
                        (MkConn true [] []) eq_refl eq_refl)).
Defined.

Lemma nested_loop_none (key : string) (l : list pyval) (ncstr : list string) :
  existsb is_none l = true ->
  nested_loop key l ncstr = Raise (AttributeError "replace").
Proof.
  revert ncstr. induction l as [|v l IH]; intros ncstr H; [discriminate|].
  cbn [existsb] in H. cbn [nested_loop].
  destruct v as [|s|z]; [reflexivity| |]; cbn [is_none orb] in H;
    cbn [_escape_str rbind]; apply IH, H.
Qed.

Lemma nested_loop_ok (key : string) (l : list pyval) (ncstr : list string) :
  existsb is_none l = false -> exists out, nested_loop key l ncstr = Ok out.
Proof.
  revert ncstr. induction l as [|v l IH]; intros ncstr H; [eexists; reflexivity|].
  cbn [existsb] in H. apply orb_false_iff in H as [Hv Hl].
  destruct v as [|s|z]; [discriminate| |]; cbn [nested_loop _escape_str rbind];
    apply IH, Hl.
Qed.

Lemma keys_loop_none (keys : list (string * param)) (cstr : list string) :
  existsb (fun kv => has_none (snd kv)) keys = true ->
  keys_loop keys cstr = Raise (AttributeError "replace").
Proof.
  revert cstr. induction keys as [|[key p] keys IH]; intros cstr H; [discriminate|].
  cbn [existsb snd] in H. cbn [keys_loop]. destruct p as [v|l].
  - destruct v as [|s|z]; [reflexivity| |]; cbn [has_none is_none orb] in H;
      cbn [_escape_str rbind]; apply IH, H.
  - cbn [has_none] in H. destruct (existsb is_none l) eqn:El.
    + rewrite (nested_loop_none key l [] El). reflexivity.
    + destruct (nested_loop_ok key l [] El) as [out ->]. cbn [rbind].
      apply IH, H.
Qed.

(** X19: when a value of the parameters is [None], as a scalar or in a list,
    [send_command] raises the [AttributeError] of the missing [replace]
    before it writes or reads anything. *)
Theorem send_command_none_value (command : string)
    (keys : list (string * param)) (opts : option (list string)) (self : conn) :
  existsb (fun kv => has_none (snd kv)) keys = true ->
  construct_command command (Some keys) opts = Raise (AttributeError "replace") /\
  send_command command (Some keys) opts self =
    (Raise (AttributeError "replace"), self).
Proof.
  intros H.
  assert (Hc : construct_command command (Some keys) opts =
               Raise (AttributeError "replace")).
  { unfold construct_command. destruct keys as [|kv keys]; [discriminate|].
    cbn [truthy_list default]. unfold id.
    rewrite (keys_loop_none (kv :: keys) [command] H). reflexivity. }
  split; [exact Hc|]. apply send_command_raises, Hc.
Qed.

(** A kick whose reason id was left out. *)
Lemma send_command_none_value_witness :
  send_command "clientkick"
    (Some [("clid", Scalar (VInt 3)); ("reasonid", Scalar VNone)]) None
    (MkConn true ["error id=0 msg=ok"] []) =
  (Raise (AttributeError "replace"), MkConn true ["error id=0 msg=ok"] []).
Proof.
  exact (proj2 (send_command_none_value "clientkick"
                  [("clid", Scalar (VInt 3)); ("reasonid", Scalar VNone)] None
                  (MkConn true ["error id=0 msg=ok"] []) eq_refl)).
Defined.



End Refused.
